(** * PageCollector: per-page windowed collection of observed items

    A shallow embedding of [src/PageCollector.ts]: the id generator, the
    generic [PageCollector] with its navigation windows, the
    [NetworkCollector] override of [splitAfterNavigation], and the issue
    de-duplication handler.

    JavaScript objects (pages, frames, requests, issues) are modelled by
    their reference, a [nat]; two references are the same object exactly
    when they are equal, which is what [===] and [Array.includes] test on
    objects.  The hidden [stableIdSymbol] property of an object lives in
    the object itself, so it is one map shared by every page. *)

From Stdlib Require Import ZArith Lia.
From stdpp Require Import gmap strings list fin_maps.

Local Open Scope Z_scope.

(** ** Completions of a JavaScript call *)

Inductive exn : Type :=
| TypeError
| Error (message : string).

Inductive completion (A : Type) : Type :=
| Return (a : A)
| Throw (e : exn).
Arguments Return {A} a.
Arguments Throw {A} e.

(** ** createIdGenerator *)

Definition MAX_SAFE_INTEGER : Z := 9007199254740991.

(** The closure returned by [createIdGenerator] captures [let i = 1]. *)
Definition createIdGenerator : Z := 1.

(** One call of the closure on captured counter [i]:
    [if (i === MAX_SAFE_INTEGER) i = 0; return i++;]
    gives the returned id and the new value of the counter. *)
Definition idGenerator_call (i : Z) : Z * Z :=
  let i := if i =? MAX_SAFE_INTEGER then 0 else i in
  (i, i + 1).

(** The id returned by call number [n] (counting from 0) of a fresh
    generator, and the counter left behind by the first [n] calls. *)
Fixpoint idGenerator_counter (n : nat) : Z :=
  match n with
  | O => createIdGenerator
  | S n' => snd (idGenerator_call (idGenerator_counter n'))
  end.

Definition idGenerator_emits (n : nat) : Z :=
  fst (idGenerator_call (idGenerator_counter n)).

(** ** Array helpers *)

(** [Array.prototype.findLastIndex]: indices [k-1], [k-2], ..., [0] are
    examined in that order; [-1] when no element satisfies [f]. *)
Fixpoint findLastIndex_loop {A : Type} (f : A → bool) (l : list A) (k : nat) : Z :=
  match k with
  | O => -1
  | S k' =>
      match l !! k' with
      | Some x => if f x then Z.of_nat k' else findLastIndex_loop f l k'
      | None => findLastIndex_loop f l k'
      end
  end.

Definition findLastIndex {A : Type} (f : A → bool) (l : list A) : Z :=
  findLastIndex_loop f l (length l).

(** ** The state of one collector *)

Definition maxNavigationSaved : nat := 3.

Record State : Type := mkState {
  (** [this instanceof NetworkCollector] *)
  isNetworkCollector : bool;
  (** [this.storage]: page ↦ navigations, index 0 the current one *)
  storage : gmap nat (list (list nat));
  (** the counter [i] captured by the collector closure made for a page *)
  idGenerator : gmap nat Z;
  (** the [stableIdSymbol] property of every object that has one *)
  stableId : gmap nat Z;
  (** [this.#seenIssueKeys] *)
  seenIssueKeys : gmap nat (gset string);
  (** [this.#mockIssuesManagers]: page ↦ the issues dispatched, in order,
      to that page's mock manager (and through it to its aggregator) *)
  mockIssuesManagers : gmap nat (list nat)
}.

Definition with_storage (st : gmap nat (list (list nat))) (s : State) : State :=
  mkState (isNetworkCollector s) st (idGenerator s) (stableId s)
          (seenIssueKeys s) (mockIssuesManagers s).

(** A new collector: [new PageCollector(...)] or [new NetworkCollector(...)]. *)
Definition newCollector (network : bool) : State :=
  mkState network ∅ ∅ ∅ ∅ ∅.

(** [!withId[stableIdSymbol]] is false only for an object that carries a
    truthy id: [undefined] and [0] are both falsy. *)
Definition hasStableId (s : State) (value : nat) : bool :=
  match stableId s !! value with
  | Some id => negb (id =? 0)
  | None => false
  end.

(** [getIdForResource]: [resource[stableIdSymbol] ?? -1]. *)
Definition getIdForResource (s : State) (resource : nat) : Z :=
  default (-1) (stableId s !! resource).

(** ** The collector closure of a page

    [collector] is the function created in [#initializePage] for [page];
    [idGenerator s !! page] is the counter it captured.  Where no closure
    was ever created for [page] there is nothing to call and the state is
    left as it is. *)
Definition assignId (page value : nat) (i : Z) (s : State) : State :=
  if hasStableId s value then s
  else
    let '(id, i') := idGenerator_call i in
    mkState (isNetworkCollector s) (storage s) (<[page := i']> (idGenerator s))
            (<[value := id]> (stableId s)) (seenIssueKeys s)
            (mockIssuesManagers s).

Definition collector (page value : nat) (s : State) : completion unit * State :=
  match idGenerator s !! page with
  | None => (Return tt, s)
  | Some i =>
      let s1 := assignId page value i s in
      match storage s1 !! page with
      | None =>
          (* [?? [[]]]: the value is pushed to an array nobody keeps *)
          (Return tt, s1)
      | Some navigations =>
          match navigations !! 0%nat with
          | None => (Throw TypeError, s1)
          | Some currentNavigation =>
              if bool_decide (value ∈ currentNavigation) then (Return tt, s1)
              else
                (Return tt,
                 with_storage
                   (<[page := <[0%nat := currentNavigation ++ [value]]> navigations]>
                      (storage s1)) s1)
          end
      end
  end.

(** ** Rotation *)

(** [PageCollector.splitAfterNavigation]: [unshift([])], then
    [splice(maxNavigationSaved)] drops every index from 3 on. *)
Definition PageCollector_splitAfterNavigation (page : nat) (s : State)
  : completion unit * State :=
  match storage s !! page with
  | None => (Return tt, s)
  | Some navigations =>
      (Return tt,
       with_storage
         (<[page := take maxNavigationSaved ([] :: navigations)]> (storage s)) s)
  end.

Section Driver.

(** The automation driver: [page.mainFrame()], [request.frame()] (which
    may be [null]) and [request.isNavigationRequest()]. *)
Variable mainFrame : nat → nat.
Variable frame : nat → option nat.
Variable isNavigationRequest : nat → bool.

(** The issue library: [IssuesManager.createIssuesFromProtocolIssue] and
    [issue.primaryKey()]. *)
Variable createIssuesFromProtocolIssue : nat → list nat.
Variable primaryKey : nat → string.

(** The predicate handed to [findLastIndex]. *)
Definition isMainFrameNavigation (page request : nat) : bool :=
  if bool_decide (frame request = Some (mainFrame page))
  then isNavigationRequest request
  else false.

(** [NetworkCollector.splitAfterNavigation].  [storage.get(page) ?? []]
    is never falsy, so the guard [if (!navigations) return] does not
    fire; for a page without storage [navigations[0]] is [undefined] and
    the call of [findLastIndex] on it throws. *)
Definition NetworkCollector_splitAfterNavigation (page : nat) (s : State)
  : completion unit * State :=
  let navigations := default [] (storage s !! page) in
  match navigations !! 0%nat with
  | None => (Throw TypeError, s)
  | Some requests =>
      let lastRequestIdx := findLastIndex (isMainFrameNavigation page) requests in
      if lastRequestIdx =? -1 then
        (Return tt, with_storage (<[page := [] :: navigations]> (storage s)) s)
      else
        let k := Z.to_nat lastRequestIdx in
        let fromCurrentNavigation := drop k requests in
        (Return tt,
         with_storage
           (<[page := fromCurrentNavigation :: <[0%nat := take k requests]> navigations]>
              (storage s)) s)
  end.

(** Method dispatch on the class of the collector. *)
Definition splitAfterNavigation (page : nat) (s : State) : completion unit * State :=
  if isNetworkCollector s then NetworkCollector_splitAfterNavigation page s
  else PageCollector_splitAfterNavigation page s.

(** The [framenavigated] listener installed by [#initializePage]. *)
Definition framenavigated (page navigated : nat) (s : State) : completion unit * State :=
  if bool_decide (navigated = mainFrame page) then splitAfterNavigation page s
  else (Return tt, s).

(** ** Issues *)

(** The part of [subscribeForIssues] that touches the collector. *)
Definition subscribeForIssues (page : nat) (s : State) : State :=
  if isNetworkCollector s then s
  else
    mkState (isNetworkCollector s) (storage s) (idGenerator s) (stableId s)
            (match seenIssueKeys s !! page with
             | Some _ => seenIssueKeys s
             | None => <[page := ∅]> (seenIssueKeys s)
             end)
            (<[page := []]> (mockIssuesManagers s)).

(** The handler of ['Audits.issueAdded'] on the page's session. *)
Definition Audits_issueAdded (page data : nat) (s : State) : completion unit * State :=
  match head (createIssuesFromProtocolIssue data) with
  | None => (Return tt, s)
  | Some issue =>
      match seenIssueKeys s !! page with
      | None => (Throw TypeError, s)
      | Some seenKeys =>
          if bool_decide (primaryKey issue ∈ seenKeys) then (Return tt, s)
          else
            let seen := <[page := {[primaryKey issue]} ∪ seenKeys]> (seenIssueKeys s) in
            match mockIssuesManagers s !! page with
            | Some received =>
                (Return tt,
                 mkState (isNetworkCollector s) (storage s) (idGenerator s)
                         (stableId s) seen
                         (<[page := received ++ [issue]]> (mockIssuesManagers s)))
            | None =>
                (Return tt,
                 mkState (isNetworkCollector s) (storage s) (idGenerator s)
                         (stableId s) seen (mockIssuesManagers s))
            end
      end
  end.

(** Offering a sequence of raw notifications to one page. *)
Definition offerAll (page : nat) (datas : list nat) (s : State) : State :=
  foldl (fun s data => snd (Audits_issueAdded page data s)) s datas.

(** The primary keys carried by a sequence of raw notifications. *)
Definition offeredKeys (datas : list nat) : list string :=
  omap (fun data => primaryKey <$> head (createIssuesFromProtocolIssue data)) datas.

(** How many of the forwarded issues carry [key]. *)
Definition forwardedWithKey (key : string) (issues : list nat) : nat :=
  length (filter (fun issue => primaryKey issue = key) issues).

(** ** Page life cycle *)

Definition initializePage (page : nat) (s : State) : State :=
  subscribeForIssues page
    (mkState (isNetworkCollector s) (<[page := [[]]]> (storage s))
             (<[page := createIdGenerator]> (idGenerator s)) (stableId s)
             (seenIssueKeys s) (mockIssuesManagers s)).

Definition addPage (page : nat) (s : State) : State :=
  match storage s !! page with
  | Some _ => s
  | None => initializePage page s
  end.

Definition cleanupPageDestroyed (page : nat) (s : State) : State :=
  mkState (isNetworkCollector s) (delete page (storage s)) (idGenerator s)
          (stableId s) (delete page (seenIssueKeys s))
          (delete page (mockIssuesManagers s)).

(** ** Events delivered to one collector, and runs *)

Inductive event : Type :=
| AddPage (page : nat)
| Collect (page value : nat)
| FrameNavigated (page navigated : nat)
| IssueAdded (page data : nat)
| TargetDestroyed (page : nat).

(** A handler that throws leaves the state as it was at the throw. *)
Definition step (e : event) (s : State) : State :=
  match e with
  | AddPage page => addPage page s
  | Collect page value => snd (collector page value s)
  | FrameNavigated page navigated => snd (framenavigated page navigated s)
  | IssueAdded page data => snd (Audits_issueAdded page data s)
  | TargetDestroyed page => cleanupPageDestroyed page s
  end.

Definition run (es : list event) (s : State) : State :=
  foldl (fun s e => step e s) s es.

End Driver.

(** ** Queries *)

(** [getData].  [None] stands for [undefined], which [navigations[0]]
    would be on an empty array of navigations. *)
Definition getData (s : State) (page : nat) (includePreservedData : bool)
  : option (list nat) :=
  match storage s !! page with
  | None => Some []
  | Some navigations =>
      if negb includePreservedData then navigations !! 0%nat
      else
        Some (foldl (fun data index =>
                       match navigations !! index with
                       | Some navigation => data ++ navigation
                       | None => data
                       end)
                    [] (rev (seq 0 (S maxNavigationSaved))))
  end.

(** [find], with the filter of [getById]:
    [item => item[stableIdSymbol] === stableId]. *)
Definition hasId (s : State) (id : Z) (item : nat) : bool :=
  bool_decide (stableId s !! item = Some id).

Fixpoint find_in (filter : nat → bool) (navigations : list (list nat)) : option nat :=
  match navigations with
  | [] => None
  | navigation :: rest =>
      match List.find filter navigation with
      | Some item => Some item
      | None => find_in filter rest
      end
  end.

Definition find (s : State) (page : nat) (filter : nat → bool) : option nat :=
  match storage s !! page with
  | None => None
  | Some navigations => find_in filter navigations
  end.

Definition getById (s : State) (page : nat) (id : Z) : completion nat :=
  match storage s !! page with
  | None => Throw (Error "No requests found for selected page")
  | Some _ =>
      match find s page (hasId s id) with
      | Some item => Return item
      | None => Throw (Error "Request not found for selected page")
      end
  end.

(** ** A concrete driver for the examples

    One page whose main frame is frame 0; every request belongs to that
    frame; the requests whose reference is a multiple of 10 are the
    navigation requests.  Protocol issue [d] yields the single issue [d],
    and issues [d] and [d + 100] share their primary key. *)

Definition exMainFrame (page : nat) : nat := 0%nat.
Definition exFrame (request : nat) : option nat := Some 0%nat.
Definition exIsNavigationRequest (request : nat) : bool :=
  Nat.eqb (request mod 10) 0.
Definition exCreateIssues (data : nat) : list nat := [data].
Definition exPrimaryKey (issue : nat) : string :=
  if Nat.even (issue mod 100) then "even" else "odd".

Definition exRun : list event → State → State :=
  run exMainFrame exFrame exIsNavigationRequest exCreateIssues exPrimaryKey.

(** Four navigations of page 1, each started by a navigation request that
    is collected before the frame reports the navigation. *)
Definition fourNavigations : list event :=
  [ AddPage 1; Collect 1 10; Collect 1 11;
    Collect 1 20; FrameNavigated 1 0; Collect 1 21;
    Collect 1 30; FrameNavigated 1 0; Collect 1 31;
    Collect 1 40; FrameNavigated 1 0; Collect 1 41;
    Collect 1 50; FrameNavigated 1 0; Collect 1 51 ]%nat.

(** Three navigations: the list [fourNavigations] up to its third
    [FrameNavigated]. *)
Definition threeNavigations : list event := take 11 fourNavigations.

(** The object that is collected when the counter of its page stands at
    [MAX_SAFE_INTEGER], and the run that gets there: page 1 is registered
    and the objects [0 .. wrapItem] are collected on it, one after the
    other. *)
Definition wrapItem : nat := Z.to_nat (MAX_SAFE_INTEGER - 1).

Definition wrapEvents : list event :=
  AddPage 1 :: map (Collect 1%nat) (seq 0 (S wrapItem)).

(** ** Predicates used in the statements *)

(** Every registered page keeps between one and [maxNavigationSaved]
    navigations. *)
Definition windowsBounded (s : State) : Prop :=
  ∀ page navigations,
    storage s !! page = Some navigations →
    (1 ≤ length navigations ≤ maxNavigationSaved)%nat.

(** No two different objects carry the same id. *)
Definition stableIdsUnique (s : State) : Prop :=
  ∀ x y id,
    stableId s !! x = Some id → stableId s !! y = Some id → x = y.

(** ** Start-up and target notifications

    [init] adds every page the browser reports and then listens for
    targets; [target.page()] may resolve to [null], modelled by [None]. *)
Definition init (pages : list nat) (s : State) : State :=
  foldl (fun s page => addPage page s) s pages.

Definition targetcreated (targetPage : option nat) (s : State) : State :=
  match targetPage with
  | None => s
  | Some page => addPage page s
  end.

Definition targetdestroyed (targetPage : option nat) (s : State) : State :=
  match targetPage with
  | None => s
  | Some page => cleanupPageDestroyed page s
  end.

(** ** Listeners

    The listeners of a page: those the initializer of the collector
    returns, and the one [#initializePage] installs for ['framenavigated'].
    A listener map is a JavaScript object whose keys are event names; it
    is modelled by its entries in the order [Object.entries] lists them,
    which for such keys is the order of their first assignment. *)
Inductive listener : Type :=
| UserListener (id : nat)
| NavigationListener (page : nat).

(** [object[name] = value]: an existing key keeps its place, a new key
    goes to the end. *)
Fixpoint setProperty (name : string) (value : listener)
         (entries : list (string * listener)) : list (string * listener) :=
  match entries with
  | [] => [(name, value)]
  | (n, l) :: rest =>
      if String.eqb n name then (n, value) :: rest
      else (n, l) :: setProperty name value rest
  end.

(** The listeners [#initializePage] attaches to [page], given what the
    initializer returned. *)
Definition pageListeners (page : nat) (fromInitializer : list (string * listener))
  : list (string * listener) :=
  setProperty "framenavigated" (NavigationListener page) fromInitializer.

(** ** Invariants of the states a collector goes through *)

(** [x] sits in one of the navigations kept for [page]. *)
Definition stored (s : State) (page x : nat) : Prop :=
  ∃ navigations navigation,
    storage s !! page = Some navigations ∧ navigation ∈ navigations ∧ x ∈ navigation.

(** A property of every kept navigation of every page. *)
Definition everyNavigation (P : list nat → Prop) (s : State) : Prop :=
  ∀ page navigations navigation,
    storage s !! page = Some navigations → navigation ∈ navigations → P navigation.

(** Every registered page has a current navigation. *)
Definition windowsNonEmpty (s : State) : Prop :=
  ∀ page navigations, storage s !! page = Some navigations → navigations ≠ [].

(** Ids and counters stay within the safe integers the generator uses. *)
Definition idsInRange (s : State) : Prop :=
  (∀ x id, stableId s !! x = Some id → 0 ≤ id < MAX_SAFE_INTEGER)
  ∧ (∀ page i, idGenerator s !! page = Some i → 1 ≤ i ≤ MAX_SAFE_INTEGER).

(** Every kept item carries an id. *)
Definition storedItemsTagged (s : State) : Prop :=
  ∀ page x, stored s page x → is_Some (stableId s !! x).

(** The per-page structures exist together: in a generic collector a page
    has its set of seen keys and its mock manager exactly when it has
    storage, and the collector closure of a registered page exists; a
    network collector has no issue structures at all. *)
Definition createdTogether (s : State) : Prop :=
  (∀ page, is_Some (storage s !! page) → is_Some (idGenerator s !! page))
  ∧ if isNetworkCollector s
    then seenIssueKeys s = ∅ ∧ mockIssuesManagers s = ∅
    else ∀ page,
        (is_Some (seenIssueKeys s !! page) ↔ is_Some (storage s !! page))
        ∧ (is_Some (mockIssuesManagers s !! page) ↔ is_Some (storage s !! page)).

(** The state of the ids while [page] is the only page objects are
    collected on and at most [k] events have been handled. *)
Definition idsOfOnePage (page : nat) (k : nat) (s : State) : Prop :=
  (∀ c, idGenerator s !! page = Some c →
        1 ≤ c ≤ 1 + Z.of_nat k
        ∧ ∀ x id, stableId s !! x = Some id → 1 ≤ id < c)
  ∧ (idGenerator s !! page = None → stableId s = ∅)
  ∧ stableIdsUnique s
  ∧ (is_Some (idGenerator s !! page) → is_Some (storage s !! page)).

(** * Properties *)

(** ** The id generator *)

Lemma MAX_SAFE_INTEGER_eq : MAX_SAFE_INTEGER = 2 ^ 53 - 1.
Proof. reflexivity. Qed.

Lemma idGenerator_call_below (i : Z) :
  i ≠ MAX_SAFE_INTEGER → idGenerator_call i = (i, i + 1).
Proof.
  intros Hi. unfold idGenerator_call.
  destruct (Z.eqb_spec i MAX_SAFE_INTEGER); [contradiction | reflexivity].
Qed.

Lemma idGenerator_call_wrap :
  idGenerator_call MAX_SAFE_INTEGER = (0, 1).
Proof. reflexivity. Qed.

(** Adding one under a modulus: either the residue grows by one or it
    falls back to 0. *)
Lemma succ_mod (a m : Z) :
  0 < m →
  (a + 1) mod m = if a mod m + 1 =? m then 0 else a mod m + 1.
Proof.
  intros Hm.
  pose proof (Z.div_mod a m ltac:(lia)) as Hdm.
  pose proof (Z.mod_pos_bound a m Hm) as Hb.
  destruct (Z.eqb_spec (a mod m + 1) m) as [Heq|Hne]; symmetry.
  - apply Z.mod_unique with (q := a / m + 1); lia.
  - apply Z.mod_unique with (q := a / m); lia.
Qed.

Lemma MAX_SAFE_INTEGER_pos : 0 < MAX_SAFE_INTEGER.
Proof. reflexivity. Qed.

(** The counter after [n] calls is one more than [n] reduced modulo
    [MAX_SAFE_INTEGER]; in particular it stays within [1 .. MAX_SAFE_INTEGER]. *)
Lemma idGenerator_counter_mod (n : nat) :
  idGenerator_counter n = Z.of_nat n mod MAX_SAFE_INTEGER + 1.
Proof.
  induction n as [|n IH].
  - reflexivity.
  - change (idGenerator_counter (S n))
      with (snd (idGenerator_call (idGenerator_counter n))).
    rewrite IH, Nat2Z.inj_succ. unfold Z.succ.
    rewrite (succ_mod _ _ MAX_SAFE_INTEGER_pos).
    unfold idGenerator_call; cbv zeta.
    destruct (Z.eqb_spec (Z.of_nat n mod MAX_SAFE_INTEGER + 1) MAX_SAFE_INTEGER);
      reflexivity.
Qed.

Lemma idGenerator_emits_mod (n : nat) :
  idGenerator_emits n = (Z.of_nat n + 1) mod MAX_SAFE_INTEGER.
Proof.
  unfold idGenerator_emits.
  rewrite idGenerator_counter_mod, (succ_mod _ _ MAX_SAFE_INTEGER_pos).
  unfold idGenerator_call; cbv zeta.
  destruct (Z.eqb_spec (Z.of_nat n mod MAX_SAFE_INTEGER + 1) MAX_SAFE_INTEGER);
    reflexivity.
Qed.

(** ** findLastIndex *)

Section FindLastIndex.
Context {A : Type} (f : A → bool).

Lemma findLastIndex_loop_none (l : list A) (k : nat) :
  (∀ j x, (j < k)%nat → l !! j = Some x → f x = false) →
  findLastIndex_loop f l k = -1.
Proof.
  induction k as [|k IH]; intros Hall; [reflexivity|].
  cbn [findLastIndex_loop].
  destruct (l !! k) as [x|] eqn:Hk.
  - rewrite (Hall k x) by (auto; lia). apply IH. intros j y Hj. apply Hall. lia.
  - apply IH. intros j y Hj. apply Hall. lia.
Qed.

Lemma findLastIndex_loop_found (l : list A) (k idx : nat) (c : A) :
  l !! idx = Some c → f c = true → (idx < k)%nat →
  (∀ j x, (idx < j < k)%nat → l !! j = Some x → f x = false) →
  findLastIndex_loop f l k = Z.of_nat idx.
Proof.
  intros Hc Hfc. induction k as [|k IH]; intros Hlt Hafter; [lia|].
  cbn [findLastIndex_loop].
  destruct (decide (idx = k)) as [->|Hne].
  - rewrite Hc, Hfc. reflexivity.
  - assert (Hrec : findLastIndex_loop f l k = Z.of_nat idx).
    { apply IH; [lia|]. intros j y Hj. apply Hafter. lia. }
    destruct (l !! k) as [x|] eqn:Hk; [|exact Hrec].
    rewrite (Hafter k x) by (auto; lia). exact Hrec.
Qed.

(** No element satisfies the predicate: the answer is [-1]. *)
Lemma findLastIndex_none (l : list A) :
  (∀ x, x ∈ l → f x = false) → findLastIndex f l = -1.
Proof.
  intros Hall. apply findLastIndex_loop_none.
  intros j x _ Hx. apply Hall. eapply list_elem_of_lookup_2; eauto.
Qed.

(** [c] is the last element that satisfies the predicate: the answer is
    its index. *)
Lemma findLastIndex_last (pre post : list A) (c : A) :
  f c = true → (∀ x, x ∈ post → f x = false) →
  findLastIndex f (pre ++ c :: post) = Z.of_nat (length pre).
Proof.
  intros Hfc Hpost. unfold findLastIndex.
  apply findLastIndex_loop_found with (c := c); auto.
  - rewrite lookup_app_r by lia. rewrite Nat.sub_diag. reflexivity.
  - rewrite length_app. cbn [length]. lia.
  - intros j x [Hj _] Hx. apply Hpost.
    rewrite lookup_app_r in Hx by lia.
    destruct (j - length pre)%nat as [|i] eqn:Hi; [lia|].
    cbn in Hx. eapply list_elem_of_lookup_2; eauto.
Qed.

Lemma findLastIndex_range (l : list A) :
  findLastIndex f l = -1 ∨ 0 ≤ findLastIndex f l < Z.of_nat (length l).
Proof.
  unfold findLastIndex. generalize (length l) as k.
  induction k as [|k IH]; [left; reflexivity|].
  cbn [findLastIndex_loop].
  destruct (l !! k) as [x|]; [destruct (f x)|]; lia.
Qed.
End FindLastIndex.

(** ** The collector closure, case by case *)

Lemma hasStableId_true (s : State) (value : nat) :
  hasStableId s value = true ↔ ∃ id, stableId s !! value = Some id ∧ id ≠ 0.
Proof.
  unfold hasStableId. destruct (stableId s !! value) as [id|]; split.
  - intros H. exists id. split; [reflexivity|].
    destruct (Z.eqb_spec id 0); [discriminate | assumption].
  - intros (id' & [= <-] & Hne). destruct (Z.eqb_spec id 0); [contradiction | reflexivity].
  - discriminate.
  - intros (id' & [=] & _).
Qed.

Lemma assignId_tagged (page value : nat) (i : Z) (s : State) :
  hasStableId s value = true → assignId page value i s = s.
Proof. intros H. unfold assignId. rewrite H. reflexivity. Qed.

Lemma assignId_untagged (page value : nat) (i : Z) (s : State) :
  hasStableId s value = false →
  assignId page value i s =
    mkState (isNetworkCollector s) (storage s)
            (<[page := snd (idGenerator_call i)]> (idGenerator s))
            (<[value := fst (idGenerator_call i)]> (stableId s))
            (seenIssueKeys s) (mockIssuesManagers s).
Proof.
  intros H. unfold assignId. rewrite H.
  destruct (idGenerator_call i). reflexivity.
Qed.

Lemma assignId_storage (page value : nat) (i : Z) (s : State) :
  storage (assignId page value i s) = storage s.
Proof.
  unfold assignId. destruct (hasStableId s value); [reflexivity|].
  destruct (idGenerator_call i). reflexivity.
Qed.

(** The state a call of [collector] leaves behind, for a page that has
    storage with a current navigation. *)
Lemma collector_registered (page value : nat) (i : Z) (s : State)
      (cur : list nat) (rest : list (list nat)) :
  idGenerator s !! page = Some i →
  storage s !! page = Some (cur :: rest) →
  collector page value s =
    (Return tt,
     let s1 := assignId page value i s in
     if bool_decide (value ∈ cur) then s1
     else with_storage (<[page := (cur ++ [value]) :: rest]> (storage s1)) s1).
Proof.
  intros Hi Hst. unfold collector. rewrite Hi. cbv zeta.
  rewrite assignId_storage, Hst. cbn [lookup list_lookup].
  destruct (bool_decide (value ∈ cur)); reflexivity.
Qed.

(** Re-ingesting an object that carries a truthy id and already sits in
    the current navigation changes nothing. *)
Lemma collector_idempotent (page value : nat) (i : Z) (s : State)
      (cur : list nat) (rest : list (list nat)) :
  idGenerator s !! page = Some i →
  storage s !! page = Some (cur :: rest) →
  value ∈ cur →
  hasStableId s value = true →
  collector page value s = (Return tt, s).
Proof.
  intros Hi Hst Hin Hid.
  rewrite (collector_registered page value i s cur rest Hi Hst). cbv zeta.
  rewrite (assignId_tagged _ _ _ _ Hid), bool_decide_eq_true_2 by assumption.
  reflexivity.
Qed.

(** ** Default rotation *)

Lemma PageCollector_splitAfterNavigation_unregistered (page : nat) (s : State) :
  storage s !! page = None →
  PageCollector_splitAfterNavigation page s = (Return tt, s).
Proof. intros H. unfold PageCollector_splitAfterNavigation. rewrite H. reflexivity. Qed.

Lemma PageCollector_splitAfterNavigation_registered
      (page : nat) (s : State) (navigations : list (list nat)) :
  storage s !! page = Some navigations →
  PageCollector_splitAfterNavigation page s =
    (Return tt,
     with_storage (<[page := [] :: take 2 navigations]> (storage s)) s).
Proof. intros H. unfold PageCollector_splitAfterNavigation. rewrite H. reflexivity. Qed.

(** After a default rotation the page keeps at most [maxNavigationSaved]
    navigations and the current one is empty. *)
Lemma PageCollector_splitAfterNavigation_length
      (page : nat) (s : State) (navigations : list (list nat)) :
  storage s !! page = Some navigations →
  ∃ rest,
    storage (snd (PageCollector_splitAfterNavigation page s)) !! page
      = Some ([] :: rest)
    ∧ (length ([] :: rest) ≤ maxNavigationSaved)%nat.
Proof.
  intros H. rewrite (PageCollector_splitAfterNavigation_registered _ _ _ H).
  exists (take 2 navigations). cbn [snd with_storage storage].
  rewrite lookup_insert_eq. split; [reflexivity|].
  cbn [length]. rewrite length_take. unfold maxNavigationSaved. lia.
Qed.

(** ** Navigation-aware rotation *)

Section NetworkRotation.
Variable mainFrame : nat → nat.
Variable frame : nat → option nat.
Variable isNavigationRequest : nat → bool.

Local Abbreviation isNav := (isMainFrameNavigation mainFrame frame isNavigationRequest).
Local Abbreviation networkSplit :=
  (NetworkCollector_splitAfterNavigation mainFrame frame isNavigationRequest).

Lemma NetworkCollector_split_unregistered (page : nat) (s : State) :
  storage s !! page = None → networkSplit page s = (Throw TypeError, s).
Proof.
  intros H. unfold NetworkCollector_splitAfterNavigation. rewrite H. reflexivity.
Qed.

Lemma NetworkCollector_split_found (page : nat) (s : State)
      (pre post : list nat) (c : nat) (rest : list (list nat)) :
  storage s !! page = Some ((pre ++ c :: post) :: rest) →
  isNav page c = true →
  (∀ x, x ∈ post → isNav page x = false) →
  networkSplit page s =
    (Return tt,
     with_storage (<[page := (c :: post) :: pre :: rest]> (storage s)) s).
Proof.
  intros Hst Hc Hpost. unfold NetworkCollector_splitAfterNavigation.
  rewrite Hst. cbn [default from_option id lookup list_lookup insert list_insert]. cbv zeta.
  rewrite (findLastIndex_last _ pre post c Hc Hpost).
  destruct (Z.eqb_spec (Z.of_nat (length pre)) (-1)) as [Hneg|_]; [lia|].
  rewrite Nat2Z.id, drop_app_length, take_app_length. reflexivity.
Qed.

Lemma NetworkCollector_split_not_found (page : nat) (s : State)
      (requests : list nat) (rest : list (list nat)) :
  storage s !! page = Some (requests :: rest) →
  (∀ x, x ∈ requests → isNav page x = false) →
  networkSplit page s =
    (Return tt,
     with_storage (<[page := [] :: requests :: rest]> (storage s)) s).
Proof.
  intros Hst Hnone. unfold NetworkCollector_splitAfterNavigation.
  rewrite Hst. cbn [default from_option id lookup list_lookup insert list_insert]. cbv zeta.
  rewrite (findLastIndex_none _ requests Hnone). reflexivity.
Qed.

(** The navigation-aware rotation never shortens the list of navigations:
    it grows by one at every call. *)
Lemma NetworkCollector_split_length (page : nat) (s : State)
      (navigations : list (list nat)) :
  storage s !! page = Some navigations → navigations ≠ [] →
  ∃ navigations',
    storage (snd (networkSplit page s)) !! page = Some navigations'
    ∧ length navigations' = S (length navigations).
Proof.
  intros Hst Hne. destruct navigations as [|requests rest]; [contradiction|].
  unfold NetworkCollector_splitAfterNavigation.
  rewrite Hst. cbn [default from_option id lookup list_lookup insert list_insert]. cbv zeta.
  destruct (_ =? -1); cbn [snd with_storage storage];
    rewrite lookup_insert_eq; eexists; (split; [reflexivity|]);
    cbn [length]; reflexivity.
Qed.
End NetworkRotation.

(** ** Queries *)

Lemma getData_unregistered (s : State) (page : nat) (includePreservedData : bool) :
  storage s !! page = None → getData s page includePreservedData = Some [].
Proof. intros H. unfold getData. rewrite H. reflexivity. Qed.

Lemma getData_current (s : State) (page : nat) (cur : list nat) (rest : list (list nat)) :
  storage s !! page = Some (cur :: rest) → getData s page false = Some cur.
Proof. intros H. unfold getData. rewrite H. reflexivity. Qed.

(** With history, [getData] reads the indices [maxNavigationSaved] down to
    0, that is the first four navigations, oldest first. *)
Lemma getData_history (s : State) (page : nat) (navigations : list (list nat)) :
  storage s !! page = Some navigations →
  getData s page true = Some (concat (rev (take (S maxNavigationSaved) navigations))).
Proof.
  intros H. unfold getData. rewrite H. cbn [negb]. f_equal.
  destruct navigations as [|n0 [|n1 [|n2 [|n3 rest]]]];
    cbn; rewrite ?take_0; cbn; rewrite ?app_nil_r, <- ?app_assoc; reflexivity.
Qed.

Lemma find_in_none (filter : nat → bool) (navigations : list (list nat)) :
  (∀ navigation x, navigation ∈ navigations → x ∈ navigation → filter x = false) →
  find_in filter navigations = None.
Proof.
  induction navigations as [|navigation rest IH]; intros Hall; [reflexivity|].
  cbn [find_in].
  destruct (List.find filter navigation) as [x|] eqn:Hfind.
  - apply List.find_some in Hfind as [Hin Hx].
    rewrite (Hall navigation x) in Hx; [discriminate | left | now apply list_elem_of_In].
  - apply IH. intros nav x Hnav. apply Hall. now right.
Qed.

Lemma find_in_some (filter : nat → bool) (navigations : list (list nat)) (x : nat) :
  find_in filter navigations = Some x →
  filter x = true ∧ ∃ navigation, navigation ∈ navigations ∧ x ∈ navigation.
Proof.
  induction navigations as [|navigation rest IH]; [discriminate|].
  cbn [find_in].
  destruct (List.find filter navigation) as [y|] eqn:Hfind.
  - intros [= ->]. apply List.find_some in Hfind as [Hin Hx].
    split; [assumption|]. exists navigation. split; [left | now apply list_elem_of_In].
  - intros H. destruct (IH H) as (Hx & nav & Hnav & Hin).
    split; [assumption|]. exists nav. split; [now right | assumption].
Qed.

Lemma getById_unregistered (s : State) (page : nat) (id : Z) :
  storage s !! page = None →
  getById s page id = Throw (Error "No requests found for selected page").
Proof. intros H. unfold getById. rewrite H. reflexivity. Qed.

Lemma getById_absent (s : State) (page : nat) (id : Z) (navigations : list (list nat)) :
  storage s !! page = Some navigations →
  (∀ navigation x, navigation ∈ navigations → x ∈ navigation →
                   stableId s !! x ≠ Some id) →
  getById s page id = Throw (Error "Request not found for selected page").
Proof.
  intros Hst Hno. unfold getById, find. rewrite Hst.
  rewrite find_in_none; [reflexivity|].
  intros nav x Hnav Hx. unfold hasId.
  apply bool_decide_eq_false_2. eauto.
Qed.

(** A successful [getById] returns an item of a kept navigation that
    carries the requested id. *)
Lemma getById_found (s : State) (page : nat) (id : Z) (x : nat) :
  getById s page id = Return x →
  stableId s !! x = Some id
  ∧ ∃ navigations navigation,
      storage s !! page = Some navigations ∧ navigation ∈ navigations ∧ x ∈ navigation.
Proof.
  unfold getById, find. destruct (storage s !! page) as [navs|]; [|discriminate].
  destruct (find_in (hasId s id) navs) as [y|] eqn:Hfind; [|discriminate].
  intros [= ->]. apply find_in_some in Hfind as (Hid & nav & Hnav & Hin).
  split; [now apply bool_decide_eq_true_1 in Hid|]. eauto.
Qed.

Lemma cleanupPageDestroyed_storage (page : nat) (s : State) :
  storage (cleanupPageDestroyed page s) !! page = None.
Proof. unfold cleanupPageDestroyed. cbn [storage]. apply lookup_delete_eq. Qed.

(** ** Issue de-duplication *)

Section Issues.
Variable createIssuesFromProtocolIssue : nat → list nat.
Variable primaryKey : nat → string.

Local Abbreviation issueAdded :=
  (Audits_issueAdded createIssuesFromProtocolIssue primaryKey).
Local Abbreviation offer := (offerAll createIssuesFromProtocolIssue primaryKey).
Local Abbreviation keysOf := (offeredKeys createIssuesFromProtocolIssue primaryKey).
Local Abbreviation countKey := (forwardedWithKey primaryKey).

Lemma issueAdded_seen (page data issue : nat) (s : State) (seenKeys : gset string) :
  head (createIssuesFromProtocolIssue data) = Some issue →
  seenIssueKeys s !! page = Some seenKeys →
  primaryKey issue ∈ seenKeys →
  issueAdded page data s = (Return tt, s).
Proof.
  intros Hd Hs Hin. unfold Audits_issueAdded. rewrite Hd, Hs.
  rewrite bool_decide_eq_true_2 by assumption. reflexivity.
Qed.

Lemma issueAdded_fresh (page data issue : nat) (s : State)
      (seenKeys : gset string) (received : list nat) :
  head (createIssuesFromProtocolIssue data) = Some issue →
  seenIssueKeys s !! page = Some seenKeys →
  mockIssuesManagers s !! page = Some received →
  primaryKey issue ∉ seenKeys →
  issueAdded page data s =
    (Return tt,
     mkState (isNetworkCollector s) (storage s) (idGenerator s) (stableId s)
             (<[page := {[primaryKey issue]} ∪ seenKeys]> (seenIssueKeys s))
             (<[page := received ++ [issue]]> (mockIssuesManagers s))).
Proof.
  intros Hd Hs Hm Hnin. unfold Audits_issueAdded. rewrite Hd, Hs, Hm.
  rewrite bool_decide_eq_false_2 by assumption. reflexivity.
Qed.

Lemma issueAdded_no_issue (page data : nat) (s : State) :
  head (createIssuesFromProtocolIssue data) = None →
  issueAdded page data s = (Return tt, s).
Proof. intros Hd. unfold Audits_issueAdded. rewrite Hd. reflexivity. Qed.

Lemma offerAll_cons (page data : nat) (datas : list nat) (s : State) :
  offer page (data :: datas) s = offer page datas (snd (issueAdded page data s)).
Proof. reflexivity. Qed.

Lemma offeredKeys_cons (data : nat) (datas : list nat) :
  keysOf (data :: datas) =
    match head (createIssuesFromProtocolIssue data) with
    | Some issue => primaryKey issue :: keysOf datas
    | None => keysOf datas
    end.
Proof.
  unfold offeredKeys. cbn [omap list_omap].
  destruct (head (createIssuesFromProtocolIssue data)); reflexivity.
Qed.

Lemma bool_to_count (P Q : Prop) `{Decision P, Decision Q} :
  (P ↔ Q) →
  (if bool_decide P then 1%nat else 0%nat) = (if bool_decide Q then 1%nat else 0%nat).
Proof. intros HPQ. rewrite (bool_decide_ext P Q HPQ). reflexivity. Qed.

(** Over any sequence of notifications for a page with a key set and a
    manager, a key is forwarded once if it was offered and had not been
    seen before, and not at all otherwise. *)
Lemma offerAll_forwarded (page : nat) (datas : list nat) :
  ∀ (s : State) (seenKeys : gset string) (received : list nat),
    seenIssueKeys s !! page = Some seenKeys →
    mockIssuesManagers s !! page = Some received →
    ∃ new,
      mockIssuesManagers (offer page datas s) !! page = Some (received ++ new)
      ∧ ∀ key,
          countKey key new =
            if bool_decide (key ∈ keysOf datas ∧ key ∉ seenKeys)
            then 1%nat else 0%nat.
Proof.
  induction datas as [|data datas IH]; intros s seenKeys received Hs Hm.
  - exists []. rewrite app_nil_r. split; [exact Hm|].
    intros key. rewrite bool_decide_eq_false_2; [reflexivity|].
    intros [Hin _]. cbn in Hin. now apply elem_of_nil in Hin.
  - rewrite offerAll_cons, offeredKeys_cons.
    destruct (head (createIssuesFromProtocolIssue data)) as [issue|] eqn:Hd.
    2:{ rewrite (issueAdded_no_issue _ _ _ Hd). cbn [snd].
        exact (IH s seenKeys received Hs Hm). }
    destruct (decide (primaryKey issue ∈ seenKeys)) as [Hin|Hnin].
    + rewrite (issueAdded_seen _ _ _ _ _ Hd Hs Hin). cbn [snd].
      destruct (IH s seenKeys received Hs Hm) as (new & Hnew & Hcount).
      exists new. split; [exact Hnew|]. intros key. rewrite Hcount.
      apply bool_to_count. rewrite elem_of_cons. intuition congruence.
    + rewrite (issueAdded_fresh _ _ _ _ _ _ Hd Hs Hm Hnin). cbn [snd].
      edestruct (IH (mkState (isNetworkCollector s) (storage s) (idGenerator s)
                      (stableId s)
                      (<[page := {[primaryKey issue]} ∪ seenKeys]> (seenIssueKeys s))
                      (<[page := received ++ [issue]]> (mockIssuesManagers s))))
        as (new & Hnew & Hcount).
      { cbn [seenIssueKeys]. apply lookup_insert_eq. }
      { cbn [mockIssuesManagers]. apply lookup_insert_eq. }
      exists (issue :: new). split.
      { rewrite Hnew. f_equal. rewrite <- app_assoc. reflexivity. }
      intros key. unfold forwardedWithKey in *. rewrite filter_cons.
      destruct (decide (primaryKey issue = key)) as [Heq|Hne].
      * cbn [length]. rewrite Hcount.
        rewrite bool_decide_eq_false_2
          by (intros [_ Hk]; apply Hk, elem_of_union_l, elem_of_singleton; congruence).
        rewrite bool_decide_eq_true_2; [reflexivity|].
        split; [rewrite elem_of_cons; auto | congruence].
      * rewrite Hcount. apply bool_to_count.
        rewrite elem_of_cons, not_elem_of_union, not_elem_of_singleton. intuition congruence.
Qed.
End Issues.

(** ** Runs *)

Lemma with_storage_id (s : State) : with_storage (storage s) s = s.
Proof. destruct s. reflexivity. Qed.

Lemma assignId_stableId_kept (page value x : nat) (i id : Z) (s : State) :
  stableId s !! x = Some id → id ≠ 0 →
  stableId (assignId page value i s) !! x = Some id.
Proof.
  intros Hx Hid. unfold assignId.
  destruct (hasStableId s value) eqn:Hv; [assumption|].
  destruct (idGenerator_call i) as [id' i']. cbn [stableId].
  rewrite lookup_insert_ne; [assumption|].
  intros ->. unfold hasStableId in Hv. rewrite Hx in Hv.
  destruct (Z.eqb_spec id 0); [contradiction | discriminate].
Qed.

(** What a call of [collector] may change: the id of [value] and the
    counter of [page] (through [assignId]), and the navigations of [page]. *)
Lemma collector_shape (page value : nat) (i : Z) (s : State) :
  idGenerator s !! page = Some i →
  ∃ st,
    snd (collector page value s) = with_storage st (assignId page value i s)
    ∧ (∀ p, is_Some (storage s !! p) → is_Some (st !! p))
    ∧ (∀ p, p ≠ page → st !! p = storage s !! p).
Proof.
  intros Hi. unfold collector. rewrite Hi. cbv zeta.
  rewrite assignId_storage.
  set (s1 := assignId page value i s).
  assert (Hs1 : storage s1 = storage s) by apply assignId_storage.
  destruct (storage s !! page) as [navigations|] eqn:Hst.
  2:{ exists (storage s). rewrite <- Hs1, with_storage_id. auto. }
  destruct (navigations !! 0%nat) as [cur|].
  2:{ exists (storage s). rewrite <- Hs1, with_storage_id. auto. }
  destruct (bool_decide (value ∈ cur)).
  { exists (storage s). rewrite <- Hs1, with_storage_id. auto. }
  eexists. cbn [snd]. split; [reflexivity|]. split.
  - intros p Hp. destruct (decide (p = page)) as [->|Hne].
    + rewrite lookup_insert_eq. eauto.
    + rewrite lookup_insert_ne by congruence. assumption.
  - intros p Hne. rewrite lookup_insert_ne by congruence. reflexivity.
Qed.

Section Runs.
Variable mainFrame : nat → nat.
Variable frame : nat → option nat.
Variable isNavigationRequest : nat → bool.
Variable createIssuesFromProtocolIssue : nat → list nat.
Variable primaryKey : nat → string.

Local Abbreviation step' :=
  (step mainFrame frame isNavigationRequest createIssuesFromProtocolIssue primaryKey).
Local Abbreviation run' :=
  (run mainFrame frame isNavigationRequest createIssuesFromProtocolIssue primaryKey).

Lemma run_nil (s : State) : run' [] s = s.
Proof. reflexivity. Qed.

Lemma run_cons (e : event) (es : list event) (s : State) :
  run' (e :: es) s = run' es (step' e s).
Proof. reflexivity. Qed.

Lemma run_app (es1 es2 : list event) (s : State) :
  run' (es1 ++ es2) s = run' es2 (run' es1 s).
Proof. unfold run. apply foldl_app. Qed.

(** Rotation touches the storage only, and never unregisters a page. *)
Lemma framenavigated_shape (page navigated : nat) (s : State) :
  ∃ st,
    snd (framenavigated mainFrame frame isNavigationRequest page navigated s)
      = with_storage st s
    ∧ (∀ p, is_Some (storage s !! p) → is_Some (st !! p))
    ∧ (∀ p, p ≠ page → st !! p = storage s !! p).
Proof.
  assert (Hsame : ∃ st, s = with_storage st s
            ∧ (∀ p, is_Some (storage s !! p) → is_Some (st !! p))
            ∧ (∀ p, p ≠ page → st !! p = storage s !! p)).
  { exists (storage s). rewrite with_storage_id. auto. }
  assert (Hins : ∀ navigations, ∃ st,
             with_storage (<[page := navigations]> (storage s)) s = with_storage st s
             ∧ (∀ p, is_Some (storage s !! p) → is_Some (st !! p))
             ∧ (∀ p, p ≠ page → st !! p = storage s !! p)).
  { intros navigations. eexists. split; [reflexivity|]. split.
    - intros p Hp. destruct (decide (p = page)) as [->|Hne].
      + rewrite lookup_insert_eq. eauto.
      + rewrite lookup_insert_ne by congruence. assumption.
    - intros p Hne. rewrite lookup_insert_ne by congruence. reflexivity. }
  unfold framenavigated, splitAfterNavigation,
    NetworkCollector_splitAfterNavigation, PageCollector_splitAfterNavigation.
  repeat case_match; cbn [snd]; auto.
Qed.

(** An id that is not 0 stays on its object for ever. *)
Lemma step_stableId_kept (e : event) (s : State) (x : nat) (id : Z) :
  stableId s !! x = Some id → id ≠ 0 → stableId (step' e s) !! x = Some id.
Proof.
  intros Hx Hid. destruct e as [p|p v|p f|p d|p]; cbn [step].
  - unfold addPage, initializePage, subscribeForIssues.
    repeat case_match; assumption.
  - destruct (idGenerator s !! p) as [i|] eqn:Hi.
    + destruct (collector_shape p v i s Hi) as (st & -> & _).
      cbn [with_storage stableId]. now apply assignId_stableId_kept.
    + unfold collector. rewrite Hi. assumption.
  - destruct (framenavigated_shape p f s) as (st & -> & _). assumption.
  - unfold Audits_issueAdded. repeat case_match; assumption.
  - assumption.
Qed.

Lemma run_stableId_kept (es : list event) :
  ∀ (s : State) (x : nat) (id : Z),
    stableId s !! x = Some id → id ≠ 0 → stableId (run' es s) !! x = Some id.
Proof.
  induction es as [|e es IH]; intros s x id Hx Hid; [assumption|].
  rewrite run_cons. apply IH; [|assumption]. now apply step_stableId_kept.
Qed.
End Runs.

Section Counters.
Variable mainFrame : nat → nat.
Variable frame : nat → option nat.
Variable isNavigationRequest : nat → bool.
Variable createIssuesFromProtocolIssue : nat → list nat.
Variable primaryKey : nat → string.

Local Abbreviation step' :=
  (step mainFrame frame isNavigationRequest createIssuesFromProtocolIssue primaryKey).
Local Abbreviation run' :=
  (run mainFrame frame isNavigationRequest createIssuesFromProtocolIssue primaryKey).

Lemma assignId_counter (page p value : nat) (i c : Z) (s : State) :
  idGenerator s !! p = Some i →
  idGenerator s !! page = Some c → c ≠ MAX_SAFE_INTEGER →
  ∃ c', idGenerator (assignId p value i s) !! page = Some c' ∧ c ≤ c' ≤ c + 1.
Proof.
  intros Hi Hc Hmax. unfold assignId.
  destruct (hasStableId s value); [exists c; split; [assumption | lia]|].
  destruct (idGenerator_call i) as [id i'] eqn:Hcall. cbn [idGenerator].
  destruct (decide (p = page)) as [->|Hne].
  - rewrite lookup_insert_eq. rewrite Hc in Hi. injection Hi as <-.
    rewrite idGenerator_call_below in Hcall by assumption.
    injection Hcall as <- <-. exists (c + 1). split; [reflexivity | lia].
  - rewrite lookup_insert_ne by congruence. exists c. split; [assumption | lia].
Qed.

(** While a page stays registered, one event moves its counter by at
    most one, and never back, as long as the counter has not reached
    [MAX_SAFE_INTEGER]. *)
Lemma step_counter (e : event) (s : State) (page : nat) (c : Z) :
  e ≠ TargetDestroyed page →
  is_Some (storage s !! page) →
  idGenerator s !! page = Some c → c ≠ MAX_SAFE_INTEGER →
  is_Some (storage (step' e s) !! page)
  ∧ ∃ c', idGenerator (step' e s) !! page = Some c' ∧ c ≤ c' ≤ c + 1.
Proof.
  intros He Hreg Hc Hmax.
  assert (Hsame : is_Some (storage s !! page)
            ∧ ∃ c', idGenerator s !! page = Some c' ∧ c ≤ c' ≤ c + 1).
  { split; [assumption|]. exists c. split; [assumption | lia]. }
  destruct e as [p|p v|p f|p d|p]; cbn [step].
  - unfold addPage. destruct (storage s !! p) eqn:Hp; [exact Hsame|].
    assert (p ≠ page) by (intros ->; rewrite Hp in Hreg; now destruct Hreg).
    unfold initializePage, subscribeForIssues.
    destruct (isNetworkCollector _); cbn [storage idGenerator isNetworkCollector];
      rewrite !lookup_insert_ne by assumption; exact Hsame.
  - destruct (idGenerator s !! p) as [i|] eqn:Hi.
    + destruct (collector_shape p v i s Hi) as (st & -> & Hkeep & _).
      cbn [with_storage storage idGenerator]. split; [auto|].
      now apply assignId_counter.
    + unfold collector. rewrite Hi. exact Hsame.
  - destruct (framenavigated_shape mainFrame frame isNavigationRequest p f s)
      as (st & -> & Hkeep & _).
    cbn [with_storage storage idGenerator]. split; [auto | apply Hsame].
  - unfold Audits_issueAdded. repeat case_match; exact Hsame.
  - assert (p ≠ page) by congruence.
    unfold cleanupPageDestroyed. cbn [storage idGenerator].
    rewrite lookup_delete_ne by assumption. exact Hsame.
Qed.

Lemma run_counter (page : nat) (es : list event) :
  ∀ (s : State) (c : Z),
    TargetDestroyed page ∉ es →
    is_Some (storage s !! page) →
    idGenerator s !! page = Some c →
    c + Z.of_nat (length es) ≤ MAX_SAFE_INTEGER →
    is_Some (storage (run' es s) !! page)
    ∧ ∃ c', idGenerator (run' es s) !! page = Some c'
            ∧ c ≤ c' ≤ c + Z.of_nat (length es).
Proof.
  induction es as [|e es IH]; intros s c Hno Hreg Hc Hbound.
  - split; [assumption|]. exists c. cbn [length]. split; [assumption | lia].
  - rewrite run_cons. cbn [length] in *.
    rewrite not_elem_of_cons in Hno. destruct Hno as [He Hno].
    destruct (step_counter e s page c) as (Hreg1 & c1 & Hc1 & Hle);
      [congruence | assumption | assumption | lia |].
    destruct (IH (step' e s) c1 Hno Hreg1 Hc1) as (Hreg2 & c2 & Hc2 & Hle2); [lia|].
    split; [assumption|]. exists c2. split; [assumption | lia].
Qed.

(** The first ingestion of an untagged object takes the next id of the
    page's generator. *)
Lemma collect_untagged (page value : nat) (i : Z) (s : State) :
  idGenerator s !! page = Some i →
  hasStableId s value = false →
  stableId (step' (Collect page value) s) !! value = Some (fst (idGenerator_call i))
  ∧ idGenerator (step' (Collect page value) s) !! page = Some (snd (idGenerator_call i))
  ∧ (is_Some (storage s !! page) →
     is_Some (storage (step' (Collect page value) s) !! page)).
Proof.
  intros Hi Hv. cbn [step].
  destruct (collector_shape page value i s Hi) as (st & -> & Hkeep & _).
  rewrite (assignId_untagged _ _ _ _ Hv).
  cbn [with_storage storage idGenerator stableId].
  rewrite !lookup_insert_eq. auto.
Qed.
End Counters.

(** ** Reaching the wrap of a page's generator *)

Section Wrap.
Variable mainFrame : nat → nat.
Variable frame : nat → option nat.
Variable isNavigationRequest : nat → bool.
Variable createIssuesFromProtocolIssue : nat → list nat.
Variable primaryKey : nat → string.

Local Abbreviation step' :=
  (step mainFrame frame isNavigationRequest createIssuesFromProtocolIssue primaryKey).
Local Abbreviation run' :=
  (run mainFrame frame isNavigationRequest createIssuesFromProtocolIssue primaryKey).

(** Registering [page] on a new generic collector and collecting the
    [n] objects [0 .. n-1], none of them seen before. *)
Lemma collect_fresh_objects (page : nat) (n : nat) :
  Z.of_nat n < MAX_SAFE_INTEGER →
  let s := run' (AddPage page :: map (Collect page) (seq 0 n)) (newCollector false) in
  storage s !! page = Some [seq 0 n]
  ∧ idGenerator s !! page = Some (Z.of_nat n + 1)
  ∧ ∀ k, (n ≤ k)%nat → stableId s !! k = None.
Proof.
  cbv zeta. induction n as [|n IH]; intros Hn.
  - cbn [seq map]. rewrite run_cons, run_nil. cbn [step].
    unfold addPage, newCollector. cbn [storage]. rewrite lookup_empty.
    unfold initializePage, subscribeForIssues.
    cbn [isNetworkCollector storage idGenerator stableId].
    rewrite !lookup_insert_eq. repeat split.
  - rewrite seq_S, map_app, app_comm_cons, run_app. cbn [Nat.add map].
    destruct IH as (Hst & Hi & Hfresh); [lia|].
    set (s := run' (AddPage page :: map (Collect page) (seq 0 n)) (newCollector false)) in *.
    rewrite run_cons, run_nil. cbn [step].
    assert (Hun : hasStableId s n = false).
    { unfold hasStableId. rewrite (Hfresh n) by lia. reflexivity. }
    rewrite (collector_registered page n _ s (seq 0 n) [] Hi Hst). cbn [snd]. cbv zeta.
    rewrite bool_decide_eq_false_2 by (rewrite elem_of_seq; lia).
    rewrite (assignId_untagged _ _ _ _ Hun).
    rewrite idGenerator_call_below by lia.
    cbn [with_storage storage idGenerator stableId fst snd].
    rewrite !lookup_insert_eq. repeat split.
    + f_equal. lia.
    + intros k Hk. rewrite lookup_insert_ne by lia. apply Hfresh. lia.
Qed.

(** Once the counter of [page] stands at [MAX_SAFE_INTEGER], the next
    untagged object is given id 0; the check [!withId[stableIdSymbol]]
    takes that id for a missing one, so collecting the same object
    again gives it a new id. *)
Lemma collect_at_wrap (page value : nat) (s : State)
      (cur : list nat) (rest : list (list nat)) :
  idGenerator s !! page = Some MAX_SAFE_INTEGER →
  storage s !! page = Some (cur :: rest) →
  stableId s !! value = None →
  value ∉ cur →
  let s1 := step' (Collect page value) s in
  storage s1 !! page = Some ((cur ++ [value]) :: rest)
  ∧ stableId s1 !! value = Some 0
  ∧ fst (collector page value s1) = Return tt
  ∧ storage (snd (collector page value s1)) !! page = Some ((cur ++ [value]) :: rest)
  ∧ stableId (snd (collector page value s1)) !! value = Some 1.
Proof.
  intros Hi Hst Hnone Hnin. cbv zeta. cbn [step].
  assert (Hun : hasStableId s value = false).
  { unfold hasStableId. rewrite Hnone. reflexivity. }
  rewrite (collector_registered page value _ s cur rest Hi Hst). cbn [snd]. cbv zeta.
  rewrite bool_decide_eq_false_2 by assumption.
  rewrite (assignId_untagged _ _ _ _ Hun), idGenerator_call_wrap.
  unfold with_storage.
  cbn [isNetworkCollector storage idGenerator stableId seenIssueKeys
       mockIssuesManagers fst snd].
  set (s1 := mkState _ (<[page := _]> _) _ _ _ _).
  assert (Hi1 : idGenerator s1 !! page = Some 1) by apply lookup_insert_eq.
  assert (Hst1 : storage s1 !! page = Some ((cur ++ [value]) :: rest))
    by apply lookup_insert_eq.
  assert (Hid1 : stableId s1 !! value = Some 0) by apply lookup_insert_eq.
  assert (Hun1 : hasStableId s1 value = false).
  { unfold hasStableId. rewrite Hid1. reflexivity. }
  rewrite (collector_registered page value _ s1 _ _ Hi1 Hst1). cbv zeta.
  rewrite bool_decide_eq_true_2 by (rewrite elem_of_app, list_elem_of_singleton; auto).
  rewrite (assignId_untagged _ _ _ _ Hun1).
  cbn [fst snd storage stableId].
  repeat split; try assumption.
  rewrite lookup_insert_eq. reflexivity.
Qed.
End Wrap.

(** ** The bound on kept navigations in a generic collector *)

Section Bounded.
Variable mainFrame : nat → nat.
Variable frame : nat → option nat.
Variable isNavigationRequest : nat → bool.
Variable createIssuesFromProtocolIssue : nat → list nat.
Variable primaryKey : nat → string.

Local Abbreviation step' :=
  (step mainFrame frame isNavigationRequest createIssuesFromProtocolIssue primaryKey).
Local Abbreviation run' :=
  (run mainFrame frame isNavigationRequest createIssuesFromProtocolIssue primaryKey).

Lemma windowsBounded_new (network : bool) : windowsBounded (newCollector network).
Proof. intros page navigations H. cbn in H. now rewrite lookup_empty in H. Qed.

Lemma windowsBounded_update (s s' : State) (page : nat) (navigations : list (list nat)) :
  windowsBounded s →
  (1 ≤ length navigations ≤ maxNavigationSaved)%nat →
  storage s' = <[page := navigations]> (storage s) →
  windowsBounded s'.
Proof.
  intros Hb Hlen Hs' p navs Hp. rewrite Hs' in Hp.
  destruct (decide (p = page)) as [->|Hne].
  - rewrite lookup_insert_eq in Hp. injection Hp as <-. assumption.
  - rewrite lookup_insert_ne in Hp by congruence. eapply Hb; eassumption.
Qed.

Lemma step_isNetworkCollector (e : event) (s : State) :
  isNetworkCollector (step' e s) = isNetworkCollector s.
Proof.
  destruct e as [p|p v|p f|p d|p]; cbn [step].
  - unfold addPage. destruct (storage s !! p); [reflexivity|].
    unfold initializePage, subscribeForIssues. cbn [isNetworkCollector].
    destruct (isNetworkCollector s); reflexivity.
  - destruct (idGenerator s !! p) as [i|] eqn:Hi.
    + destruct (collector_shape p v i s Hi) as (st & -> & _).
      cbn [with_storage isNetworkCollector]. unfold assignId.
      destruct (hasStableId s v); [reflexivity|].
      destruct (idGenerator_call i). reflexivity.
    + unfold collector. rewrite Hi. reflexivity.
  - destruct (framenavigated_shape mainFrame frame isNavigationRequest p f s)
      as (st & -> & _). reflexivity.
  - unfold Audits_issueAdded. repeat case_match; reflexivity.
  - reflexivity.
Qed.

(** In a generic collector every event keeps the bound. *)
Lemma step_windowsBounded (e : event) (s : State) :
  isNetworkCollector s = false → windowsBounded s → windowsBounded (step' e s).
Proof.
  intros Hgen Hb. destruct e as [p|p v|p f|p d|p]; cbn [step].
  - unfold addPage. destruct (storage s !! p) eqn:Hp; [assumption|].
    unfold initializePage, subscribeForIssues. rewrite Hgen.
    cbn [isNetworkCollector].
    apply (windowsBounded_update s _ p [[]] Hb); [|reflexivity].
    cbn. unfold maxNavigationSaved. lia.
  - unfold collector. destruct (idGenerator s !! p) as [i|]; [|assumption].
    cbv zeta. rewrite assignId_storage.
    assert (Hb1 : windowsBounded (assignId p v i s)).
    { intros q navs Hq. rewrite assignId_storage in Hq. eapply Hb; eassumption. }
    destruct (storage s !! p) as [navigations|] eqn:Hp; [|assumption].
    destruct (navigations !! 0%nat) as [cur|]; [|assumption].
    destruct (bool_decide (v ∈ cur)); [assumption|]. cbn [snd].
    apply (windowsBounded_update s _ p (<[0%nat := cur ++ [v]]> navigations) Hb).
    + rewrite length_insert. eapply Hb; eassumption.
    + cbn [with_storage storage]. reflexivity.
  - unfold framenavigated, splitAfterNavigation. rewrite Hgen.
    destruct (bool_decide (f = mainFrame p)); [|assumption].
    unfold PageCollector_splitAfterNavigation.
    destruct (storage s !! p) as [navigations|] eqn:Hp; [|assumption]. cbn [snd].
    apply (windowsBounded_update s _ p (take maxNavigationSaved ([] :: navigations)) Hb);
      [|reflexivity].
    rewrite length_take. cbn [length]. unfold maxNavigationSaved. lia.
  - intros q navs Hq. apply (Hb q navs).
    unfold Audits_issueAdded in Hq. repeat case_match; exact Hq.
  - intros q navs Hq. unfold cleanupPageDestroyed in Hq. cbn [storage] in Hq.
    apply lookup_delete_Some in Hq as [_ Hq]. eapply Hb; eassumption.
Qed.

Lemma run_windowsBounded (es : list event) :
  ∀ s, isNetworkCollector s = false → windowsBounded s → windowsBounded (run' es s).
Proof.
  induction es as [|e es IH]; intros s Hgen Hb; [assumption|].
  rewrite run_cons. apply IH.
  - rewrite step_isNetworkCollector. assumption.
  - now apply step_windowsBounded.
Qed.

(** Under the bound, the query with history returns every kept
    navigation, oldest first, and there are at most three of them. *)
Lemma getData_history_bounded (s : State) (page : nat) (navigations : list (list nat)) :
  windowsBounded s →
  storage s !! page = Some navigations →
  getData s page true = Some (concat (rev navigations))
  ∧ (length navigations ≤ maxNavigationSaved)%nat.
Proof.
  intros Hb Hp. pose proof (Hb page navigations Hp) as Hlen.
  rewrite (getData_history s page navigations Hp).
  rewrite take_ge by lia. split; [reflexivity | lia].
Qed.
End Bounded.

(** * The claims *)

(** ** Rotation *)

(** C1.  The bound of [maxNavigationSaved] kept navigations does not hold
    for the navigation-aware rotation: [NetworkCollector.splitAfterNavigation]
    prepends and never truncates.  After three navigations of page 1 a
    network collector keeps four navigations, while a generic collector fed
    the same events keeps three. *)
Theorem network_rotation_keeps_four_navigations :
  storage (exRun threeNavigations (newCollector true)) !! 1%nat
    = Some [[40]; [30; 31]; [20; 21]; [10; 11]]%nat
  ∧ (maxNavigationSaved < length [[40]; [30; 31]; [20; 21]; [10; 11]]%nat)%nat
  ∧ storage (exRun threeNavigations (newCollector false)) !! 1%nat
    = Some [[]; [31; 40]; [21; 30]]%nat.
Proof.
  split; [vm_compute; reflexivity|]. split; [vm_compute; lia|].
  vm_compute; reflexivity.
Qed.

(** C2.  Rotation for a page without storage: the default rotation returns
    and changes nothing, but the navigation-aware rotation throws a
    [TypeError], both for a page that was torn down and for one that was
    never registered. *)
Theorem network_rotation_throws_without_storage
        (mainFrame : nat → nat) (frame : nat → option nat)
        (isNavigationRequest : nat → bool) (page : nat) (s : State) :
  NetworkCollector_splitAfterNavigation mainFrame frame isNavigationRequest page
    (cleanupPageDestroyed page s)
    = (Throw TypeError, cleanupPageDestroyed page s)
  ∧ NetworkCollector_splitAfterNavigation mainFrame frame isNavigationRequest page
      (newCollector true)
    = (Throw TypeError, newCollector true)
  ∧ PageCollector_splitAfterNavigation page (cleanupPageDestroyed page s)
    = (Return tt, cleanupPageDestroyed page s).
Proof.
  split; [|split].
  - apply NetworkCollector_split_unregistered, cleanupPageDestroyed_storage.
  - apply NetworkCollector_split_unregistered. apply lookup_empty.
  - apply PageCollector_splitAfterNavigation_unregistered,
      cleanupPageDestroyed_storage.
Qed.

(** C5.  Navigation-aware rotation of a registered page whose current
    navigation is [requests]: when [c] is the last request of the main
    frame that is a navigation request, everything from [c] on becomes
    the new current navigation and everything before it is the navigation
    at index 1; when there is no such request an empty navigation is
    prepended.  In both cases the older navigations [rest] stay as they
    are and no request is dropped. *)
Theorem network_rotation_moves_navigation_suffix
        (mainFrame : nat → nat) (frame : nat → option nat)
        (isNavigationRequest : nat → bool)
        (page : nat) (s : State) (requests : list nat) (rest : list (list nat)) :
  storage s !! page = Some (requests :: rest) →
  (∀ pre c post,
      requests = pre ++ c :: post →
      isMainFrameNavigation mainFrame frame isNavigationRequest page c = true →
      (∀ x, x ∈ post →
            isMainFrameNavigation mainFrame frame isNavigationRequest page x = false) →
      NetworkCollector_splitAfterNavigation mainFrame frame isNavigationRequest page s
      = (Return tt,
         with_storage (<[page := (c :: post) :: pre :: rest]> (storage s)) s))
  ∧ ((∀ x, x ∈ requests →
           isMainFrameNavigation mainFrame frame isNavigationRequest page x = false) →
     NetworkCollector_splitAfterNavigation mainFrame frame isNavigationRequest page s
     = (Return tt,
        with_storage (<[page := [] :: requests :: rest]> (storage s)) s)).
Proof.
  intros Hst. split.
  - intros pre c post -> Hc Hpost. now apply NetworkCollector_split_found.
  - intros Hnone. now apply NetworkCollector_split_not_found.
Qed.

Lemma network_rotation_moves_navigation_suffix_witness :
  storage (exRun [Collect 1 10; Collect 1 11; Collect 1 20; Collect 1 21]%nat
                 (exRun [AddPage 1] (newCollector true))) !! 1%nat
    = Some [[10; 11; 20; 21]]%nat
  ∧ storage
      (snd (NetworkCollector_splitAfterNavigation
              exMainFrame exFrame exIsNavigationRequest 1
              (exRun [Collect 1 10; Collect 1 11; Collect 1 20; Collect 1 21]%nat
                     (exRun [AddPage 1] (newCollector true))))) !! 1%nat
    = Some [[20; 21]; [10; 11]]%nat.
Proof.
  split; [reflexivity|].
  rewrite (proj1 (network_rotation_moves_navigation_suffix
                    exMainFrame exFrame exIsNavigationRequest 1%nat
                    (exRun [Collect 1 10; Collect 1 11; Collect 1 20; Collect 1 21]%nat
                           (exRun [AddPage 1] (newCollector true)))
                    [10; 11; 20; 21]%nat [] eq_refl)
                 [10; 11]%nat 20%nat [21]%nat eq_refl eq_refl).
  - reflexivity.
  - intros x Hx. apply list_elem_of_singleton in Hx. subst x. reflexivity.
Defined.

(** ** Ingestion *)

Lemma wrapItem_spec : Z.of_nat wrapItem = MAX_SAFE_INTEGER - 1.
Proof. unfold wrapItem. apply Z2Nat.id. unfold MAX_SAFE_INTEGER. lia. Qed.

(** C3.  Re-ingesting an object of the current navigation changes nothing
    as long as its id is truthy ([collector_idempotent]), but not for the
    object that was given id 0 when the generator of its page wrapped:
    [!withId[stableIdSymbol]] holds for it, so the second ingestion gives
    it a new id.  Here page 1 of a generic collector has collected the
    objects [0 .. wrapItem]; [wrapItem] sits in the current navigation
    with id 0, and collecting it again changes its id to 1. *)
Theorem reingest_after_wrap_reassigns_id :
  (∃ cur rest,
      storage (exRun wrapEvents (newCollector false)) !! 1%nat = Some (cur :: rest)
      ∧ wrapItem ∈ cur)
  ∧ stableId (exRun wrapEvents (newCollector false)) !! wrapItem = Some 0
  ∧ stableId (snd (collector 1 wrapItem (exRun wrapEvents (newCollector false))))
      !! wrapItem = Some 1.
Proof.
  unfold exRun, wrapEvents.
  pose proof wrapItem_spec as Hw. revert Hw. generalize wrapItem as n. intros n Hn.
  rewrite seq_S, map_app, app_comm_cons, run_app. cbn [Nat.add map].
  destruct (collect_fresh_objects exMainFrame exFrame exIsNavigationRequest
              exCreateIssues exPrimaryKey 1%nat n) as (Hst & Hi & Hfresh); [lia|].
  rewrite run_cons, run_nil.
  replace (Z.of_nat n + 1) with MAX_SAFE_INTEGER in Hi by lia.
  destruct (collect_at_wrap exMainFrame exFrame exIsNavigationRequest
              exCreateIssues exPrimaryKey 1%nat n _ (seq 0 n) [] Hi Hst)
    as (Hst1 & Hid1 & _ & _ & Hid2).
  { apply Hfresh. lia. }
  { rewrite elem_of_seq. lia. }
  split; [|split; assumption].
  eexists _, _. split; [exact Hst1|].
  rewrite elem_of_app, list_elem_of_singleton. auto.
Qed.

(** C10.  Only the current navigation is searched before an object is
    appended: an object that sits in an older navigation and is collected
    again is appended to the current one, and the query with history then
    returns it at least twice. *)
Theorem collector_appends_object_of_older_navigation
        (page value : nat) (i : Z) (s : State)
        (cur old : list nat) (rest : list (list nat)) :
  idGenerator s !! page = Some i →
  storage s !! page = Some (cur :: rest) →
  value ∉ cur →
  old ∈ take maxNavigationSaved rest →
  value ∈ old →
  storage (snd (collector page value s)) !! page = Some ((cur ++ [value]) :: rest)
  ∧ ∃ data,
      getData (snd (collector page value s)) page true = Some data
      ∧ (2 ≤ count_occ Nat.eq_dec data value)%nat.
Proof.
  intros Hi Hst Hnin Hold Hin.
  rewrite (collector_registered page value i s cur rest Hi Hst). cbv zeta. cbn [snd].
  rewrite bool_decide_eq_false_2 by assumption.
  set (s1 := assignId page value i s).
  assert (Hst' : storage (with_storage (<[page := (cur ++ [value]) :: rest]> (storage s1)) s1)
                   !! page = Some ((cur ++ [value]) :: rest)).
  { cbn [with_storage storage]. apply lookup_insert_eq. }
  split; [exact Hst'|].
  eexists. split; [apply (getData_history _ _ _ Hst')|].
  change (take (S maxNavigationSaved) ((cur ++ [value]) :: rest))
    with ((cur ++ [value]) :: take maxNavigationSaved rest).
  cbn [rev]. rewrite concat_app, count_occ_app. cbn [concat].
  rewrite app_nil_r, count_occ_app.
  assert (H1 : (1 ≤ count_occ Nat.eq_dec (concat (rev (take maxNavigationSaved rest))) value)%nat).
  { apply (proj1 (count_occ_In Nat.eq_dec _ value)).
    apply in_concat. exists old. split.
    - apply in_rev. rewrite rev_involutive. now apply list_elem_of_In.
    - now apply list_elem_of_In. }
  assert (H2 : (1 ≤ count_occ Nat.eq_dec [value] value)%nat).
  { cbn. destruct (Nat.eq_dec value value); [lia | contradiction]. }
  lia.
Qed.

Lemma collector_appends_object_of_older_navigation_witness :
  storage (exRun [AddPage 1; Collect 1 5; FrameNavigated 1 0]%nat (newCollector false))
    !! 1%nat = Some [[]; [5]]%nat
  ∧ storage (snd (collector 1 5
       (exRun [AddPage 1; Collect 1 5; FrameNavigated 1 0]%nat (newCollector false))))
      !! 1%nat = Some [[5]; [5]]%nat
  ∧ ∃ data,
      getData (snd (collector 1 5
        (exRun [AddPage 1; Collect 1 5; FrameNavigated 1 0]%nat (newCollector false))))
        1%nat true = Some data
      ∧ (2 ≤ count_occ Nat.eq_dec data 5%nat)%nat.
Proof.
  split; [reflexivity|].
  apply (collector_appends_object_of_older_navigation 1%nat 5%nat 2
           (exRun [AddPage 1; Collect 1 5; FrameNavigated 1 0]%nat (newCollector false))
           [] [5%nat] [[5%nat]]).
  - reflexivity.
  - reflexivity.
  - apply not_elem_of_nil.
  - apply list_elem_of_singleton. reflexivity.
  - apply list_elem_of_singleton. reflexivity.
Defined.

(** ** Queries *)

(** C4.  The query with history reads the indices [maxNavigationSaved]
    down to 0, four navigations, and the navigation-aware rotation keeps
    them all: after four navigations of page 1 a network collector holds
    five navigations and the query returns the requests of four of them,
    oldest first. *)
Theorem network_history_spans_four_navigations :
  storage (exRun fourNavigations (newCollector true)) !! 1%nat
    = Some [[50; 51]; [40; 41]; [30; 31]; [20; 21]; [10; 11]]%nat
  ∧ getData (exRun fourNavigations (newCollector true)) 1%nat true
    = Some ([20; 21] ++ [30; 31] ++ [40; 41] ++ [50; 51])%nat.
Proof. split; vm_compute; reflexivity. Qed.

(** C8.  For a page without storage, and so for a page that was torn
    down, [getData] returns the empty list and [getById] throws; [getById]
    also throws for a registered page none of whose kept items carries the
    id. *)
Theorem queries_on_missing_page_or_id
        (s : State) (page : nat) (includePreservedData : bool) (id : Z) :
  (storage s !! page = None →
   getData s page includePreservedData = Some []
   ∧ getById s page id = Throw (Error "No requests found for selected page"))
  ∧ (getData (cleanupPageDestroyed page s) page includePreservedData = Some []
     ∧ getById (cleanupPageDestroyed page s) page id
       = Throw (Error "No requests found for selected page"))
  ∧ (∀ navigations,
        storage s !! page = Some navigations →
        (∀ navigation x, navigation ∈ navigations → x ∈ navigation →
                         stableId s !! x ≠ Some id) →
        getById s page id = Throw (Error "Request not found for selected page")).
Proof.
  split; [|split].
  - intros H. split; [now apply getData_unregistered | now apply getById_unregistered].
  - pose proof (cleanupPageDestroyed_storage page s) as H.
    split; [now apply getData_unregistered | now apply getById_unregistered].
  - intros navigations. apply getById_absent.
Qed.

Lemma queries_on_missing_page_or_id_witness :
  getData (newCollector false) 7%nat true = Some []
  ∧ getById (newCollector false) 7%nat 1
    = Throw (Error "No requests found for selected page")
  ∧ getData (cleanupPageDestroyed 1 (exRun fourNavigations (newCollector false)))
            1%nat true = Some []
  ∧ getById (cleanupPageDestroyed 1 (exRun fourNavigations (newCollector false)))
            1%nat 3 = Throw (Error "No requests found for selected page")
  ∧ getById (exRun fourNavigations (newCollector false)) 1%nat 3
    = Throw (Error "Request not found for selected page")
  ∧ getById (exRun fourNavigations (newCollector false)) 1%nat 10 = Return 51%nat.
Proof.
  pose proof (queries_on_missing_page_or_id (newCollector false) 7%nat true 1)
    as (H1 & _ & _).
  pose proof (queries_on_missing_page_or_id
                (exRun fourNavigations (newCollector false)) 1%nat true 3)
    as (_ & H2 & H3).
  destruct (H1 (lookup_empty _)) as [H1a H1b].
  destruct H2 as [H2a H2b].
  split; [exact H1a|]. split; [exact H1b|].
  split; [exact H2a|]. split; [exact H2b|].
  split; [|reflexivity].
  - apply (H3 [[51]; [41; 50]; [31; 40]]%nat); [reflexivity|].
    intros navigation x Hnav Hx.
    repeat (apply elem_of_cons in Hnav as [->|Hnav]);
      [| | |now apply elem_of_nil in Hnav];
      repeat (apply elem_of_cons in Hx as [->|Hx]);
      try (now apply elem_of_nil in Hx); vm_compute; discriminate.
Defined.

(** ** Stable ids *)

(** C6, as the code has it.  Call number [n + 1] of a generator returns
    [(n + 1) mod MAX_SAFE_INTEGER]: the ids 1, 2, ..., up to
    [MAX_SAFE_INTEGER - 1], then 0, then 1 again and so on.  The value
    [MAX_SAFE_INTEGER] is never returned. *)
Theorem idGenerator_emits_modulo (n : nat) :
  idGenerator_emits n = (Z.of_nat n + 1) mod MAX_SAFE_INTEGER
  ∧ 0 ≤ idGenerator_emits n < MAX_SAFE_INTEGER.
Proof.
  rewrite idGenerator_emits_mod. split; [reflexivity|].
  apply Z.mod_pos_bound, MAX_SAFE_INTEGER_pos.
Qed.

(** C6, counterexample.  The call after the one that returns
    [MAX_SAFE_INTEGER - 1] returns 0, not [MAX_SAFE_INTEGER]. *)
Lemma idGenerator_skips_MAX_SAFE_INTEGER :
  idGenerator_emits (Z.to_nat (MAX_SAFE_INTEGER - 2)) = MAX_SAFE_INTEGER - 1
  ∧ idGenerator_emits (Z.to_nat (MAX_SAFE_INTEGER - 1)) = 0.
Proof.
  rewrite !idGenerator_emits_mod.
  rewrite !Z2Nat.id by (unfold MAX_SAFE_INTEGER; lia).
  split; reflexivity.
Qed.

(** C7, counterexample.  Every page has a generator of its own that
    starts at 1: the first object collected on page 1 and the first object
    collected on page 2 of one collector both get id 1. *)
Lemma stableId_reused_across_pages :
  ¬ stableIdsUnique
      (exRun [AddPage 1; AddPage 2; Collect 1 10; Collect 2 20]%nat
             (newCollector false)).
Proof.
  intros Hunique.
  discriminate (Hunique 10%nat 20%nat 1 eq_refl eq_refl).
Qed.

(** C7, as the code has it.  Ids are distinct among the objects tagged by
    the generator of one page while that page stays registered and its
    counter does not wrap: if [x] is tagged by a call of the collector of
    [page], and after any events that do not tear the page down, fewer
    than the counter has left before [MAX_SAFE_INTEGER], an untagged [y]
    is collected on the same page, then [y] gets a larger id than [x]. *)
Theorem stableIds_increase_on_one_page
        (mainFrame : nat → nat) (frame : nat → option nat)
        (isNavigationRequest : nat → bool)
        (createIssuesFromProtocolIssue : nat → list nat) (primaryKey : nat → string)
        (page x y : nat) (i : Z) (es : list event) (s : State) :
  is_Some (storage s !! page) →
  idGenerator s !! page = Some i →
  1 ≤ i →
  i + 1 + Z.of_nat (length es) < MAX_SAFE_INTEGER →
  hasStableId s x = false →
  TargetDestroyed page ∉ es →
  let step' := step mainFrame frame isNavigationRequest
                    createIssuesFromProtocolIssue primaryKey in
  let run' := run mainFrame frame isNavigationRequest
                  createIssuesFromProtocolIssue primaryKey in
  hasStableId (run' es (step' (Collect page x) s)) y = false →
  ∃ ix iy,
    stableId (step' (Collect page y) (run' es (step' (Collect page x) s))) !! x = Some ix
    ∧ stableId (step' (Collect page y) (run' es (step' (Collect page x) s))) !! y = Some iy
    ∧ ix < iy.
Proof.
  intros Hreg Hi Hpos Hbound Hx Hno step' run' Hy. subst step' run'.
  destruct (collect_untagged mainFrame frame isNavigationRequest
              createIssuesFromProtocolIssue primaryKey page x i s Hi Hx)
    as (Hidx & Hi1 & Hreg1).
  rewrite idGenerator_call_below in Hidx, Hi1 by lia. cbn [fst snd] in Hidx, Hi1.
  set (s1 := step _ _ _ _ _ (Collect page x) s) in *.
  destruct (run_counter mainFrame frame isNavigationRequest
              createIssuesFromProtocolIssue primaryKey page es s1 (i + 1)
              Hno (Hreg1 Hreg) Hi1) as (Hreg2 & c & Hc & Hle); [lia|].
  pose proof (run_stableId_kept mainFrame frame isNavigationRequest
                createIssuesFromProtocolIssue primaryKey es s1 x i Hidx) as Hidx2.
  set (s2 := run _ _ _ _ _ es s1) in *.
  destruct (collect_untagged mainFrame frame isNavigationRequest
              createIssuesFromProtocolIssue primaryKey page y c s2 Hc Hy)
    as (Hidy & _ & _).
  rewrite idGenerator_call_below in Hidy by lia. cbn [fst] in Hidy.
  exists i, c. split; [|split; [exact Hidy | lia]].
  apply step_stableId_kept; [apply Hidx2|]; lia.
Qed.

Lemma stableIds_increase_on_one_page_witness :
  ∃ ix iy,
    stableId (exRun [AddPage 1; Collect 1 10; FrameNavigated 1 0; Collect 1 10;
                     AddPage 2; Collect 2 20; Collect 1 11]%nat
                    (newCollector false)) !! 10%nat = Some ix
    ∧ stableId (exRun [AddPage 1; Collect 1 10; FrameNavigated 1 0; Collect 1 10;
                       AddPage 2; Collect 2 20; Collect 1 11]%nat
                      (newCollector false)) !! 11%nat = Some iy
    ∧ ix < iy.
Proof.
  apply (stableIds_increase_on_one_page
           exMainFrame exFrame exIsNavigationRequest exCreateIssues exPrimaryKey
           1%nat 10%nat 11%nat 1
           [FrameNavigated 1 0; Collect 1 10; AddPage 2; Collect 2 20]%nat
           (exRun [AddPage 1] (newCollector false))).
  - exists [[]]. reflexivity.
  - reflexivity.
  - lia.
  - vm_compute. reflexivity.
  - reflexivity.
  - intros H. repeat (apply elem_of_cons in H as [H|H]; [discriminate H|]).
    now apply elem_of_nil in H.
  - reflexivity.
Defined.

(** ** Issues *)

(** C9.  On a page that has its set of seen keys and its mock manager:
    a raw issue whose primary key is in the set leaves the whole state
    as it is, so nothing is forwarded and no id is assigned; over any
    sequence of raw notifications a key is forwarded once if it is
    offered and was not in the set, and never otherwise; in particular
    two raw issues with one new key lead to one forwarded issue, the
    first. *)
Theorem duplicate_raw_issues_forwarded_once
        (createIssuesFromProtocolIssue : nat → list nat) (primaryKey : nat → string)
        (page : nat) (s : State) (seenKeys : gset string) (received : list nat) :
  seenIssueKeys s !! page = Some seenKeys →
  mockIssuesManagers s !! page = Some received →
  (∀ data issue,
      head (createIssuesFromProtocolIssue data) = Some issue →
      primaryKey issue ∈ seenKeys →
      Audits_issueAdded createIssuesFromProtocolIssue primaryKey page data s
      = (Return tt, s))
  ∧ (∀ datas, ∃ new,
        mockIssuesManagers
          (offerAll createIssuesFromProtocolIssue primaryKey page datas s) !! page
        = Some (received ++ new)
        ∧ ∀ key,
            forwardedWithKey primaryKey key new =
              if bool_decide
                   (key ∈ offeredKeys createIssuesFromProtocolIssue primaryKey datas
                    ∧ key ∉ seenKeys)
              then 1%nat else 0%nat)
  ∧ (∀ data1 data2 issue1 issue2,
        head (createIssuesFromProtocolIssue data1) = Some issue1 →
        head (createIssuesFromProtocolIssue data2) = Some issue2 →
        primaryKey issue1 = primaryKey issue2 →
        primaryKey issue1 ∉ seenKeys →
        mockIssuesManagers
          (offerAll createIssuesFromProtocolIssue primaryKey page [data1; data2] s)
          !! page
        = Some (received ++ [issue1])).
Proof.
  intros Hs Hm. split; [|split].
  - intros data issue Hd Hin. now apply (issueAdded_seen _ _ _ _ _ _ _ Hd Hs).
  - intros datas. now apply offerAll_forwarded.
  - intros data1 data2 issue1 issue2 Hd1 Hd2 Hkey Hnew.
    rewrite !offerAll_cons.
    rewrite (issueAdded_fresh _ _ _ _ _ _ _ _ Hd1 Hs Hm Hnew). cbn [snd].
    erewrite issueAdded_seen; [| exact Hd2 | apply lookup_insert_eq |].
    + cbn [snd offerAll foldl mockIssuesManagers]. apply lookup_insert_eq.
    + rewrite <- Hkey. apply elem_of_union_l, elem_of_singleton. reflexivity.
Qed.

Lemma duplicate_raw_issues_forwarded_once_witness :
  seenIssueKeys (exRun [AddPage 1] (newCollector false)) !! 1%nat = Some ∅
  ∧ mockIssuesManagers (exRun [AddPage 1] (newCollector false)) !! 1%nat = Some []
  ∧ exPrimaryKey 1 = exPrimaryKey 101
  ∧ mockIssuesManagers
      (offerAll exCreateIssues exPrimaryKey 1 [1; 101]%nat
                (exRun [AddPage 1] (newCollector false))) !! 1%nat
    = Some [1%nat].
Proof.
  split; [reflexivity|]. split; [reflexivity|]. split; [reflexivity|].
  apply (proj2 (proj2 (duplicate_raw_issues_forwarded_once
                         exCreateIssues exPrimaryKey 1%nat
                         (exRun [AddPage 1] (newCollector false)) ∅ []
                         eq_refl eq_refl))
               1%nat 101%nat 1%nat 101%nat eq_refl eq_refl eq_refl).
  apply not_elem_of_empty.
Defined.

(** * Further properties of the generic collector *)

Lemma find_in_complete (filter : nat → bool) (navigations : list (list nat))
      (navigation : list nat) (x : nat) :
  navigation ∈ navigations → x ∈ navigation → filter x = true →
  ∃ y, find_in filter navigations = Some y.
Proof.
  induction navigations as [|nav rest IH]; intros Hnav Hx Hfx.
  - now apply elem_of_nil in Hnav.
  - cbn [find_in]. destruct (List.find filter nav) as [y|] eqn:Hfind; [eauto|].
    apply elem_of_cons in Hnav as [->|Hnav]; [|now apply IH].
    apply list_elem_of_In in Hx.
    rewrite (List.find_none _ _ Hfind x Hx) in Hfx. discriminate.
Qed.

(** X1.  In a generic collector, whatever the events, every registered
    page keeps at least one and at most [maxNavigationSaved] navigations. *)
Theorem generic_collector_keeps_at_most_three_navigations
        (mainFrame : nat → nat) (frame : nat → option nat)
        (isNavigationRequest : nat → bool)
        (createIssuesFromProtocolIssue : nat → list nat) (primaryKey : nat → string)
        (es : list event) (page : nat) (navigations : list (list nat)) :
  storage (run mainFrame frame isNavigationRequest createIssuesFromProtocolIssue
               primaryKey es (newCollector false)) !! page = Some navigations →
  (1 ≤ length navigations ≤ maxNavigationSaved)%nat.
Proof.
  apply run_windowsBounded; [reflexivity | apply windowsBounded_new].
Qed.

Lemma generic_collector_keeps_at_most_three_navigations_witness :
  storage (exRun fourNavigations (newCollector false)) !! 1%nat
    = Some [[51]; [41; 50]; [31; 40]]%nat
  ∧ (1 ≤ length [[51]; [41; 50]; [31; 40]]%nat ≤ maxNavigationSaved)%nat.
Proof.
  split; [reflexivity|].
  apply (generic_collector_keeps_at_most_three_navigations
           exMainFrame exFrame exIsNavigationRequest exCreateIssues exPrimaryKey
           fourNavigations 1%nat).
  reflexivity.
Defined.

(** X2.  Re-ingesting an object that sits in the current navigation and
    carries an id other than 0 changes nothing: no new id, no second
    entry. *)
Theorem reingest_of_tagged_object_changes_nothing
        (page value : nat) (i id : Z) (s : State)
        (cur : list nat) (rest : list (list nat)) :
  idGenerator s !! page = Some i →
  storage s !! page = Some (cur :: rest) →
  value ∈ cur →
  stableId s !! value = Some id →
  id ≠ 0 →
  collector page value s = (Return tt, s).
Proof.
  intros Hi Hst Hin Hid Hne.
  apply (collector_idempotent page value i s cur rest Hi Hst Hin).
  apply hasStableId_true. eauto.
Qed.

Lemma reingest_of_tagged_object_changes_nothing_witness :
  stableId (exRun [AddPage 1; Collect 1 5]%nat (newCollector false)) !! 5%nat = Some 1
  ∧ collector 1 5 (exRun [AddPage 1; Collect 1 5]%nat (newCollector false))
    = (Return tt, exRun [AddPage 1; Collect 1 5]%nat (newCollector false)).
Proof.
  split; [reflexivity|].
  apply (reingest_of_tagged_object_changes_nothing 1%nat 5%nat 2 1 _ [5%nat] []).
  - reflexivity.
  - reflexivity.
  - apply list_elem_of_singleton. reflexivity.
  - reflexivity.
  - discriminate.
Defined.

(** X3.  In a generic collector the query with history returns the items
    of all kept navigations, oldest first, and these are at most
    [maxNavigationSaved]. *)
Theorem generic_history_is_all_kept_navigations
        (mainFrame : nat → nat) (frame : nat → option nat)
        (isNavigationRequest : nat → bool)
        (createIssuesFromProtocolIssue : nat → list nat) (primaryKey : nat → string)
        (es : list event) (page : nat) (navigations : list (list nat)) :
  storage (run mainFrame frame isNavigationRequest createIssuesFromProtocolIssue
               primaryKey es (newCollector false)) !! page = Some navigations →
  getData (run mainFrame frame isNavigationRequest createIssuesFromProtocolIssue
               primaryKey es (newCollector false)) page true
    = Some (concat (rev navigations))
  ∧ (length navigations ≤ maxNavigationSaved)%nat.
Proof.
  apply getData_history_bounded.
  apply run_windowsBounded; [reflexivity | apply windowsBounded_new].
Qed.

Lemma generic_history_is_all_kept_navigations_witness :
  getData (exRun fourNavigations (newCollector false)) 1%nat true
    = Some [31; 40; 41; 50; 51]%nat
  ∧ (length [[51]; [41; 50]; [31; 40]]%nat ≤ maxNavigationSaved)%nat.
Proof.
  apply (generic_history_is_all_kept_navigations
           exMainFrame exFrame exIsNavigationRequest exCreateIssues exPrimaryKey
           fourNavigations 1%nat [[51]; [41; 50]; [31; 40]]%nat).
  reflexivity.
Defined.

(** X4.  Default rotation of a registered page: the new current
    navigation is empty, the former current navigation is at index 1, and
    of the older ones only the first is kept. *)
Theorem default_rotation_starts_empty
        (page : nat) (s : State) (cur : list nat) (rest : list (list nat)) :
  storage s !! page = Some (cur :: rest) →
  PageCollector_splitAfterNavigation page s
  = (Return tt, with_storage (<[page := [] :: cur :: take 1 rest]> (storage s)) s).
Proof.
  intros Hst. rewrite (PageCollector_splitAfterNavigation_registered _ _ _ Hst).
  reflexivity.
Qed.

Lemma default_rotation_starts_empty_witness :
  storage (snd (PageCollector_splitAfterNavigation 1
                  (exRun fourNavigations (newCollector false)))) !! 1%nat
  = Some [[]; [51]; [41; 50]]%nat.
Proof.
  rewrite (default_rotation_starts_empty 1%nat
             (exRun fourNavigations (newCollector false))
             [51%nat] [[41; 50]; [31; 40]]%nat eq_refl).
  reflexivity.
Defined.

(** X5.  [getById] finds an id carried by an item of any kept navigation,
    not only of the current one: it returns an item with that id. *)
Theorem getById_searches_every_kept_navigation
        (s : State) (page : nat) (id : Z)
        (navigations : list (list nat)) (navigation : list nat) (x : nat) :
  storage s !! page = Some navigations →
  navigation ∈ navigations →
  x ∈ navigation →
  stableId s !! x = Some id →
  ∃ y, getById s page id = Return y ∧ stableId s !! y = Some id.
Proof.
  intros Hst Hnav Hx Hid. unfold getById, find. rewrite Hst.
  destruct (find_in_complete (hasId s id) navigations navigation x Hnav Hx)
    as [y Hy].
  { unfold hasId. now apply bool_decide_eq_true_2. }
  rewrite Hy. exists y. split; [reflexivity|].
  apply find_in_some in Hy as [Hy _]. now apply bool_decide_eq_true_1 in Hy.
Qed.

Lemma getById_searches_every_kept_navigation_witness :
  getData (exRun fourNavigations (newCollector false)) 1%nat false = Some [51%nat]
  ∧ ∃ y, getById (exRun fourNavigations (newCollector false)) 1%nat 6 = Return y
         ∧ stableId (exRun fourNavigations (newCollector false)) !! y = Some 6.
Proof.
  split; [reflexivity|].
  apply (getById_searches_every_kept_navigation
           (exRun fourNavigations (newCollector false)) 1%nat 6
           [[51]; [41; 50]; [31; 40]]%nat [31; 40]%nat 31%nat).
  - reflexivity.
  - apply elem_of_cons. right. apply elem_of_cons. right.
    apply list_elem_of_singleton. reflexivity.
  - apply elem_of_cons. left. reflexivity.
  - reflexivity.
Defined.

(** Example.  The scenario of a registered page [1] and one object [7]: the
    first ingestion gives id 1; the second changes neither the id nor
    the window; after a rotation the current window is empty and the
    object is in the window at index 1; the query without history returns
    nothing and the query with history returns the object. *)
Theorem register_ingest_twice_rotate_query :
  getIdForResource (exRun [AddPage 1; Collect 1 7]%nat (newCollector false)) 7 = 1
  ∧ exRun [AddPage 1; Collect 1 7; Collect 1 7]%nat (newCollector false)
    = exRun [AddPage 1; Collect 1 7]%nat (newCollector false)
  ∧ getData (exRun [AddPage 1; Collect 1 7; Collect 1 7]%nat (newCollector false))
            1%nat false = Some [7%nat]
  ∧ storage (exRun [AddPage 1; Collect 1 7; Collect 1 7; FrameNavigated 1 0]%nat
                   (newCollector false)) !! 1%nat = Some [[]; [7%nat]]
  ∧ getData (exRun [AddPage 1; Collect 1 7; Collect 1 7; FrameNavigated 1 0]%nat
                   (newCollector false)) 1%nat false = Some []
  ∧ getData (exRun [AddPage 1; Collect 1 7; Collect 1 7; FrameNavigated 1 0]%nat
                   (newCollector false)) 1%nat true = Some [7%nat]
  ∧ getIdForResource (newCollector false) 7 = -1.
Proof. repeat split; vm_compute; reflexivity. Qed.

(** * What each event does to the fields of the state *)

Lemma collector_fields (page value : nat) (s : State) :
  isNetworkCollector (snd (collector page value s)) = isNetworkCollector s
  ∧ seenIssueKeys (snd (collector page value s)) = seenIssueKeys s
  ∧ mockIssuesManagers (snd (collector page value s)) = mockIssuesManagers s.
Proof.
  destruct (idGenerator s !! page) as [i|] eqn:Hi.
  - destruct (collector_shape page value i s Hi) as (st & -> & _).
    cbn [with_storage isNetworkCollector seenIssueKeys mockIssuesManagers].
    unfold assignId. destruct (hasStableId s value); [auto|].
    destruct (idGenerator_call i). auto.
  - unfold collector. rewrite Hi. auto.
Qed.

(** The storage after a call of [collector]: as before, or with [value]
    appended to the current navigation of [page]. *)
Lemma collector_storage (page value : nat) (s : State) :
  storage (snd (collector page value s)) = storage s
  ∨ (∃ cur rest,
      is_Some (idGenerator s !! page)
      ∧ storage s !! page = Some (cur :: rest)
      ∧ (value ∉ cur)
      ∧ storage (snd (collector page value s))
        = <[page := (cur ++ [value]) :: rest]> (storage s)).
Proof.
  unfold collector. destruct (idGenerator s !! page) as [i|] eqn:Hi; [|now left].
  cbv zeta. rewrite assignId_storage.
  destruct (storage s !! page) as [navigations|] eqn:Hst;
    [|left; apply assignId_storage].
  destruct navigations as [|cur rest]; cbn [lookup list_lookup];
    [left; apply assignId_storage|].
  destruct (bool_decide (value ∈ cur)) eqn:Hin; [left; apply assignId_storage|].
  right. exists cur, rest. apply bool_decide_eq_false_1 in Hin.
  cbn [snd with_storage storage]. eauto 6.
Qed.

(** The ids and counters after a call of [collector]: as before, or with
    the next id of the page's generator put on the untagged [value]. *)
Lemma collector_ids (page value : nat) (s : State) :
  ((idGenerator s !! page = None ∨ hasStableId s value = true)
   ∧ stableId (snd (collector page value s)) = stableId s
   ∧ idGenerator (snd (collector page value s)) = idGenerator s)
  ∨ (∃ i,
      idGenerator s !! page = Some i
      ∧ hasStableId s value = false
      ∧ stableId (snd (collector page value s))
        = <[value := fst (idGenerator_call i)]> (stableId s)
      ∧ idGenerator (snd (collector page value s))
        = <[page := snd (idGenerator_call i)]> (idGenerator s)).
Proof.
  destruct (idGenerator s !! page) as [i|] eqn:Hi.
  - destruct (collector_shape page value i s Hi) as (st & -> & _).
    cbn [with_storage stableId idGenerator].
    destruct (hasStableId s value) eqn:Hv.
    + left. rewrite (assignId_tagged _ _ _ _ Hv). auto.
    + right. exists i. rewrite (assignId_untagged _ _ _ _ Hv).
      cbn [stableId idGenerator]. auto.
  - left. unfold collector. rewrite Hi. auto.
Qed.

(** After a call of an existing collector closure the value carries an id. *)
Lemma collector_tags (page value : nat) (s : State) :
  is_Some (idGenerator s !! page) →
  is_Some (stableId (snd (collector page value s)) !! value).
Proof.
  intros [i Hi].
  destruct (collector_ids page value s)
    as [([Hnone|Hv] & -> & _)|(j & _ & _ & -> & _)].
  - congruence.
  - apply hasStableId_true in Hv as (id & -> & _). eauto.
  - rewrite lookup_insert_eq. eauto.
Qed.

Lemma subscribeForIssues_fields (page : nat) (s : State) :
  isNetworkCollector (subscribeForIssues page s) = isNetworkCollector s
  ∧ storage (subscribeForIssues page s) = storage s
  ∧ idGenerator (subscribeForIssues page s) = idGenerator s
  ∧ stableId (subscribeForIssues page s) = stableId s.
Proof.
  unfold subscribeForIssues. destruct (isNetworkCollector s) eqn:Hn; cbn; auto.
Qed.

Lemma addPage_fields (page : nat) (s : State) :
  isNetworkCollector (addPage page s) = isNetworkCollector s
  ∧ stableId (addPage page s) = stableId s.
Proof.
  unfold addPage. destruct (storage s !! page); [auto|].
  unfold initializePage.
  destruct (subscribeForIssues_fields page
              (mkState (isNetworkCollector s) (<[page := [[]]]> (storage s))
                       (<[page := createIdGenerator]> (idGenerator s)) (stableId s)
                       (seenIssueKeys s) (mockIssuesManagers s)))
    as (-> & _ & _ & ->). auto.
Qed.

(** Registration of a page that has no storage. *)
Lemma addPage_unregistered (page : nat) (s : State) :
  storage s !! page = None →
  storage (addPage page s) = <[page := [[]]]> (storage s)
  ∧ idGenerator (addPage page s) = <[page := createIdGenerator]> (idGenerator s).
Proof.
  intros Hp. unfold addPage. rewrite Hp. unfold initializePage.
  destruct (subscribeForIssues_fields page
              (mkState (isNetworkCollector s) (<[page := [[]]]> (storage s))
                       (<[page := createIdGenerator]> (idGenerator s)) (stableId s)
                       (seenIssueKeys s) (mockIssuesManagers s)))
    as (_ & -> & -> & _). auto.
Qed.

Lemma addPage_registered (page : nat) (s : State) :
  is_Some (storage s !! page) → addPage page s = s.
Proof. intros [navigations Hp]. unfold addPage. rewrite Hp. reflexivity. Qed.

Section EventFields.
Variable mainFrame : nat → nat.
Variable frame : nat → option nat.
Variable isNavigationRequest : nat → bool.
Variable createIssuesFromProtocolIssue : nat → list nat.
Variable primaryKey : nat → string.

Local Abbreviation step' :=
  (step mainFrame frame isNavigationRequest createIssuesFromProtocolIssue primaryKey).
Local Abbreviation run' :=
  (run mainFrame frame isNavigationRequest createIssuesFromProtocolIssue primaryKey).
Local Abbreviation navigated' := (framenavigated mainFrame frame isNavigationRequest).
Local Abbreviation issueAdded' :=
  (Audits_issueAdded createIssuesFromProtocolIssue primaryKey).

(** A property kept by every event holds after every run. *)
Lemma run_invariant (P : State → Prop) :
  (∀ e s, P s → P (step' e s)) → ∀ es s, P s → P (run' es s).
Proof.
  intros Hstep es. induction es as [|e es IH]; intros s Hs; [assumption|].
  rewrite run_cons. apply IH, Hstep, Hs.
Qed.

Lemma run_isNetworkCollector (es : list event) (s : State) :
  isNetworkCollector (run' es s) = isNetworkCollector s.
Proof.
  revert s. induction es as [|e es IH]; intros s; [reflexivity|].
  rewrite run_cons, IH. apply step_isNetworkCollector.
Qed.

Lemma issueAdded_fields (page data : nat) (s : State) :
  isNetworkCollector (snd (issueAdded' page data s)) = isNetworkCollector s
  ∧ storage (snd (issueAdded' page data s)) = storage s
  ∧ idGenerator (snd (issueAdded' page data s)) = idGenerator s
  ∧ stableId (snd (issueAdded' page data s)) = stableId s.
Proof. unfold Audits_issueAdded. repeat case_match; cbn; auto. Qed.

Lemma framenavigated_fields (page navigated : nat) (s : State) :
  isNetworkCollector (snd (navigated' page navigated s)) = isNetworkCollector s
  ∧ idGenerator (snd (navigated' page navigated s)) = idGenerator s
  ∧ stableId (snd (navigated' page navigated s)) = stableId s
  ∧ seenIssueKeys (snd (navigated' page navigated s)) = seenIssueKeys s
  ∧ mockIssuesManagers (snd (navigated' page navigated s)) = mockIssuesManagers s.
Proof.
  destruct (framenavigated_shape mainFrame frame isNavigationRequest page navigated s)
    as (st & -> & _). cbn. auto.
Qed.

(** The storage after a [framenavigated] notification: as before, or with
    the navigations of the page rotated the way of the collector's class. *)
Lemma framenavigated_storage (page navigated : nat) (s : State) :
  storage (snd (navigated' page navigated s)) = storage s
  ∨ (∃ cur rest,
      storage s !! page = Some (cur :: rest)
      ∧ ((isNetworkCollector s = false
          ∧ storage (snd (navigated' page navigated s))
            = <[page := [] :: cur :: take 1 rest]> (storage s))
         ∨ (isNetworkCollector s = true
            ∧ ∃ k, storage (snd (navigated' page navigated s))
                   = <[page := drop k cur :: take k cur :: rest]> (storage s))))
  ∨ (isNetworkCollector s = false
     ∧ storage s !! page = Some []
     ∧ storage (snd (navigated' page navigated s)) = <[page := [[]]]> (storage s)).
Proof.
  unfold framenavigated. destruct (bool_decide (navigated = mainFrame page)); [|now left].
  unfold splitAfterNavigation. destruct (isNetworkCollector s) eqn:Hn.
  - unfold NetworkCollector_splitAfterNavigation.
    destruct (storage s !! page) as [[|cur rest]|] eqn:Hst;
      cbn [default from_option id lookup list_lookup]; [now left| |now left].
    right. left. exists cur, rest. split; [reflexivity|]. right. split; [reflexivity|].
    cbv zeta. destruct (_ =? -1).
    + exists (length cur). rewrite drop_all, firstn_all. reflexivity.
    + eexists. reflexivity.
  - unfold PageCollector_splitAfterNavigation.
    destruct (storage s !! page) as [[|cur rest]|] eqn:Hst; [|  |now left].
    + right. right. auto.
    + right. left. exists cur, rest. split; [reflexivity|]. left. auto.
Qed.
End EventFields.

(** * Invariants over runs *)

Section Invariants.
Variable mainFrame : nat → nat.
Variable frame : nat → option nat.
Variable isNavigationRequest : nat → bool.
Variable createIssuesFromProtocolIssue : nat → list nat.
Variable primaryKey : nat → string.

Local Abbreviation step' :=
  (step mainFrame frame isNavigationRequest createIssuesFromProtocolIssue primaryKey).
Local Abbreviation run' :=
  (run mainFrame frame isNavigationRequest createIssuesFromProtocolIssue primaryKey).

(** Where a navigation kept after an event comes from: it is empty, or
    it is a part of a navigation the page kept before, or it is the
    former current navigation with the value just collected at its end. *)
Lemma step_window_origin (e : event) (s : State) (q : nat)
      (navigations' : list (list nat)) (navigation' : list nat) :
  storage (step' e s) !! q = Some navigations' →
  navigation' ∈ navigations' →
  navigation' = []
  ∨ (∃ navigations navigation,
        storage s !! q = Some navigations ∧ navigation ∈ navigations
        ∧ navigation' `sublist_of` navigation)
  ∨ (∃ cur rest v,
        e = Collect q v ∧ is_Some (idGenerator s !! q)
        ∧ storage s !! q = Some (cur :: rest) ∧ (v ∉ cur)
        ∧ navigation' = cur ++ [v]).
Proof.
  intros Hq Hin.
  assert (Hold : ∀ navigations navigation,
             storage s !! q = Some navigations → navigation ∈ navigations →
             navigation' `sublist_of` navigation →
             navigation' = []
             ∨ (∃ navigations navigation,
                   storage s !! q = Some navigations ∧ navigation ∈ navigations
                   ∧ navigation' `sublist_of` navigation)
             ∨ (∃ cur rest v,
                   e = Collect q v ∧ is_Some (idGenerator s !! q)
                   ∧ storage s !! q = Some (cur :: rest) ∧ (v ∉ cur)
                   ∧ navigation' = cur ++ [v])).
  { intros navs nav H1 H2 H3. right. left. eauto. }
  destruct e as [p|p v|p f|p d|p]; cbn [step] in Hq.
  - destruct (storage s !! p) as [navs|] eqn:Hp.
    + rewrite addPage_registered in Hq by eauto. eapply Hold; eauto.
    + destruct (addPage_unregistered p s Hp) as [Hst _]. rewrite Hst in Hq.
      apply lookup_insert_Some in Hq as [[<- <-]|[_ Hq]]; [|eapply Hold; eauto].
      left. apply list_elem_of_singleton in Hin. assumption.
  - destruct (collector_storage p v s) as [Hst|(cur & rest & Hi & Hp & Hnin & Hst)];
      rewrite Hst in Hq; [eapply Hold; eauto|].
    apply lookup_insert_Some in Hq as [[<- <-]|[_ Hq]]; [|eapply Hold; eauto].
    apply elem_of_cons in Hin as [->|Hin].
    + right. right. exists cur, rest, v. auto.
    + eapply Hold; [exact Hp | apply elem_of_cons; right; exact Hin | reflexivity].
  - destruct (framenavigated_storage mainFrame frame isNavigationRequest p f s)
      as [Hst|[(cur & rest & Hp & [[_ Hst]|[_ [k Hst]]])|(_ & Hp & Hst)]];
      rewrite Hst in Hq; [eapply Hold; eauto| | |].
    + apply lookup_insert_Some in Hq as [[<- <-]|[_ Hq]]; [|eapply Hold; eauto].
      apply elem_of_cons in Hin as [->|Hin]; [now left|].
      apply elem_of_cons in Hin as [->|Hin].
      * eapply Hold; [exact Hp | apply elem_of_cons; left; reflexivity | reflexivity].
      * eapply Hold; [exact Hp | apply elem_of_cons; right; eapply subseteq_take; exact Hin | reflexivity].
    + apply lookup_insert_Some in Hq as [[<- <-]|[_ Hq]]; [|eapply Hold; eauto].
      apply elem_of_cons in Hin as [->|Hin];
        [eapply Hold; [exact Hp | apply elem_of_cons; left; reflexivity | apply sublist_drop]|].
      apply elem_of_cons in Hin as [->|Hin];
        [eapply Hold; [exact Hp | apply elem_of_cons; left; reflexivity | apply sublist_take]|].
      eapply Hold; [exact Hp | apply elem_of_cons; right; exact Hin | reflexivity].
    + apply lookup_insert_Some in Hq as [[<- <-]|[_ Hq]]; [|eapply Hold; eauto].
      left. apply list_elem_of_singleton in Hin. assumption.
  - destruct (issueAdded_fields createIssuesFromProtocolIssue primaryKey p d s)
      as (_ & Hst & _). rewrite Hst in Hq. eapply Hold; eauto.
  - cbn [cleanupPageDestroyed storage] in Hq.
    apply lookup_delete_Some in Hq as [_ Hq]. eapply Hold; eauto.
Qed.

(** An item kept after an event was kept before, or it is the value the
    event collected on that page: nothing but [collector] puts an item
    into a navigation. *)
Lemma step_stored_origin (e : event) (s : State) (q x : nat) :
  stored (step' e s) q x →
  stored s q x ∨ (e = Collect q x ∧ is_Some (idGenerator s !! q)).
Proof.
  intros (navs' & nav' & Hq & Hnav & Hx).
  destruct (step_window_origin e s q navs' nav' Hq Hnav)
    as [->|[(navs & nav & Hp & Hin & Hsub)|(cur & rest & v & -> & Hi & Hp & _ & ->)]].
  - now apply elem_of_nil in Hx.
  - left. exists navs, nav. split; [assumption|]. split; [assumption|].
    eapply sublist_subseteq; eassumption.
  - apply elem_of_app in Hx as [Hx|Hx].
    + left. exists (cur :: rest), cur. split; [assumption|]. split; [now left | assumption].
    + apply list_elem_of_singleton in Hx as ->. right. auto.
Qed.

(** Ids are only ever added or overwritten, never removed. *)
Lemma step_tagged_kept (e : event) (s : State) (x : nat) :
  is_Some (stableId s !! x) → is_Some (stableId (step' e s) !! x).
Proof.
  intros Hx. destruct e as [p|p v|p f|p d|p]; cbn [step].
  - destruct (addPage_fields p s) as [_ ->]. assumption.
  - destruct (collector_ids p v s) as [(_ & -> & _)|(i & _ & _ & -> & _)];
      [assumption|].
    destruct (decide (v = x)) as [->|Hne].
    + rewrite lookup_insert_eq. eauto.
    + rewrite lookup_insert_ne by assumption. assumption.
  - destruct (framenavigated_fields mainFrame frame isNavigationRequest p f s)
      as (_ & _ & -> & _). assumption.
  - destruct (issueAdded_fields createIssuesFromProtocolIssue primaryKey p d s)
      as (_ & _ & _ & ->). assumption.
  - assumption.
Qed.

Lemma step_storedItemsTagged (e : event) (s : State) :
  storedItemsTagged s → storedItemsTagged (step' e s).
Proof.
  intros Htag q x Hx.
  destruct (step_stored_origin e s q x Hx) as [Hold|[-> Hi]].
  - apply step_tagged_kept. eapply Htag; eassumption.
  - cbn [step]. now apply collector_tags.
Qed.

Lemma step_noDup (e : event) (s : State) :
  everyNavigation NoDup s → everyNavigation NoDup (step' e s).
Proof.
  intros Hnd q navs' nav' Hq Hin.
  destruct (step_window_origin e s q navs' nav' Hq Hin)
    as [->|[(navs & nav & Hp & Hnav & Hsub)|(cur & rest & v & _ & _ & Hp & Hnin & ->)]].
  - apply NoDup_nil_2.
  - apply (sublist_NoDup nav' nav); [eapply Hnd; eassumption | exact Hsub].
  - apply NoDup_app. split; [eapply Hnd; [exact Hp | now left]|].
    split; [|apply NoDup_singleton].
    intros y Hy Hy'. apply list_elem_of_singleton in Hy' as ->. contradiction.
Qed.

Lemma step_windowsNonEmpty (e : event) (s : State) :
  windowsNonEmpty s → windowsNonEmpty (step' e s).
Proof.
  intros Hne q navs' Hq.
  destruct e as [p|p v|p f|p d|p]; cbn [step] in Hq.
  - destruct (storage s !! p) as [navs|] eqn:Hp.
    + rewrite addPage_registered in Hq by eauto. eapply Hne; eauto.
    + destruct (addPage_unregistered p s Hp) as [Hst _]. rewrite Hst in Hq.
      apply lookup_insert_Some in Hq as [[_ <-]|[_ Hq]]; [discriminate | eapply Hne; eauto].
  - destruct (collector_storage p v s) as [Hst|(cur & rest & _ & _ & _ & Hst)];
      rewrite Hst in Hq; [eapply Hne; eauto|].
    apply lookup_insert_Some in Hq as [[_ <-]|[_ Hq]]; [discriminate | eapply Hne; eauto].
  - destruct (framenavigated_storage mainFrame frame isNavigationRequest p f s)
      as [Hst|[(cur & rest & _ & [[_ Hst]|[_ [k Hst]]])|(_ & _ & Hst)]];
      rewrite Hst in Hq; [eapply Hne; eauto| | |];
      (apply lookup_insert_Some in Hq as [[_ <-]|[_ Hq]];
       [discriminate | eapply Hne; eauto]).
  - destruct (issueAdded_fields createIssuesFromProtocolIssue primaryKey p d s)
      as (_ & Hst & _). rewrite Hst in Hq. eapply Hne; eauto.
  - cbn [cleanupPageDestroyed storage] in Hq.
    apply lookup_delete_Some in Hq as [_ Hq]. eapply Hne; eauto.
Qed.

Lemma idGenerator_call_range (i : Z) :
  1 ≤ i ≤ MAX_SAFE_INTEGER →
  0 ≤ fst (idGenerator_call i) < MAX_SAFE_INTEGER
  ∧ 1 ≤ snd (idGenerator_call i) ≤ MAX_SAFE_INTEGER.
Proof.
  intros Hi. unfold idGenerator_call. cbv zeta.
  destruct (Z.eqb_spec i MAX_SAFE_INTEGER); cbn [fst snd];
    unfold MAX_SAFE_INTEGER in *; lia.
Qed.

Lemma step_idsInRange (e : event) (s : State) :
  idsInRange s → idsInRange (step' e s).
Proof.
  intros [Hid Hgen]. destruct e as [p|p v|p f|p d|p]; cbn [step]; unfold idsInRange.
  - split.
    + destruct (addPage_fields p s) as [_ ->]. assumption.
    + destruct (storage s !! p) as [navs|] eqn:Hp.
      * rewrite addPage_registered by eauto. assumption.
      * destruct (addPage_unregistered p s Hp) as [_ ->]. intros q i Hq.
        apply lookup_insert_Some in Hq as [[_ <-]|[_ Hq]]; [|eapply Hgen; eauto].
        unfold createIdGenerator, MAX_SAFE_INTEGER. lia.
  - destruct (collector_ids p v s) as [(_ & -> & ->)|(i & Hi & _ & -> & ->)];
      [split; assumption|].
    destruct (idGenerator_call_range i (Hgen p i Hi)) as [Hfst Hsnd]. split.
    + intros x id Hx. apply lookup_insert_Some in Hx as [[_ <-]|[_ Hx]];
        [assumption | eapply Hid; eauto].
    + intros q j Hq. apply lookup_insert_Some in Hq as [[_ <-]|[_ Hq]];
        [assumption | eapply Hgen; eauto].
  - destruct (framenavigated_fields mainFrame frame isNavigationRequest p f s)
      as (_ & -> & -> & _). split; assumption.
  - destruct (issueAdded_fields createIssuesFromProtocolIssue primaryKey p d s)
      as (_ & _ & -> & ->). split; assumption.
  - split; assumption.
Qed.
End Invariants.

Section Lifecycle.
Variable mainFrame : nat → nat.
Variable frame : nat → option nat.
Variable isNavigationRequest : nat → bool.
Variable createIssuesFromProtocolIssue : nat → list nat.
Variable primaryKey : nat → string.

Local Abbreviation step' :=
  (step mainFrame frame isNavigationRequest createIssuesFromProtocolIssue primaryKey).
Local Abbreviation run' :=
  (run mainFrame frame isNavigationRequest createIssuesFromProtocolIssue primaryKey).

Lemma is_Some_insert_registered {A : Type} (m : gmap nat A) (p q : nat) (x : A) :
  is_Some (m !! p) → (is_Some (<[p := x]> m !! q) ↔ is_Some (m !! q)).
Proof.
  intros Hp. destruct (decide (p = q)) as [->|Hne].
  - rewrite lookup_insert_eq. split; eauto.
  - rewrite lookup_insert_ne by assumption. reflexivity.
Qed.

(** Ingestion and rotation never register or unregister a page. *)
Lemma collector_registered_same (page value q : nat) (s : State) :
  is_Some (storage (snd (collector page value s)) !! q) ↔ is_Some (storage s !! q).
Proof.
  destruct (collector_storage page value s) as [->|(cur & rest & _ & Hp & _ & ->)];
    [reflexivity|].
  apply is_Some_insert_registered. eauto.
Qed.

Lemma framenavigated_registered_same (page navigated q : nat) (s : State) :
  is_Some (storage (snd (framenavigated mainFrame frame isNavigationRequest
                           page navigated s)) !! q)
  ↔ is_Some (storage s !! q).
Proof.
  destruct (framenavigated_storage mainFrame frame isNavigationRequest page navigated s)
    as [->|[(cur & rest & Hp & [[_ ->]|[_ [k ->]]])|(_ & Hp & ->)]];
    [reflexivity| | |]; apply is_Some_insert_registered; eauto.
Qed.

Lemma step_createdTogether (e : event) (s : State) :
  createdTogether s → createdTogether (step' e s).
Proof.
  intros [Hgen Hissue]. unfold createdTogether.
  rewrite step_isNetworkCollector.
  destruct e as [p|p v|p f|p d|p]; cbn [step].
  - destruct (storage s !! p) as [navs|] eqn:Hp;
      [rewrite addPage_registered by eauto; split; assumption|].
    unfold addPage. rewrite Hp. unfold initializePage, subscribeForIssues.
    cbn [isNetworkCollector].
    destruct (isNetworkCollector s) eqn:Hn;
      cbn [storage idGenerator seenIssueKeys mockIssuesManagers].
    + split; [|assumption]. intros q.
      destruct (decide (p = q)) as [->|Hne];
        [rewrite !lookup_insert_eq; eauto | rewrite !lookup_insert_ne by assumption; auto].
    + split.
      * intros q. destruct (decide (p = q)) as [->|Hne];
          [rewrite !lookup_insert_eq; eauto | rewrite !lookup_insert_ne by assumption; auto].
      * intros q. destruct (Hissue q) as [Hs Hm].
        destruct (decide (p = q)) as [->|Hne].
        -- rewrite !lookup_insert_eq.
           destruct (seenIssueKeys s !! q) eqn:Hsq; [rewrite Hsq|rewrite lookup_insert_eq];
             split; split; eauto.
        -- rewrite !lookup_insert_ne by assumption.
           destruct (seenIssueKeys s !! p); [|rewrite lookup_insert_ne by assumption];
             auto.
  - destruct (collector_fields p v s) as (_ & -> & ->). split.
    + intros q Hq. apply collector_registered_same in Hq.
      destruct (collector_ids p v s) as [(_ & _ & ->)|(i & Hi & _ & _ & ->)]; [auto|].
      destruct (decide (p = q)) as [->|Hne];
        [rewrite lookup_insert_eq; eauto | rewrite lookup_insert_ne by assumption; auto].
    + destruct (isNetworkCollector s); [assumption|].
      intros q. rewrite collector_registered_same. apply Hissue.
  - destruct (framenavigated_fields mainFrame frame isNavigationRequest p f s)
      as (_ & -> & _ & -> & ->). split.
    + intros q Hq. apply framenavigated_registered_same in Hq. auto.
    + destruct (isNetworkCollector s); [assumption|].
      intros q. rewrite framenavigated_registered_same. apply Hissue.
  - destruct (issueAdded_fields createIssuesFromProtocolIssue primaryKey p d s)
      as (_ & -> & -> & _). split; [assumption|].
    unfold Audits_issueAdded.
    destruct (head (createIssuesFromProtocolIssue d)) as [issue|]; [|assumption].
    destruct (seenIssueKeys s !! p) as [seenKeys|] eqn:Hs; [|assumption].
    destruct (bool_decide (primaryKey issue ∈ seenKeys)); [assumption|].
    destruct (isNetworkCollector s).
    { destruct Hissue as [He _]. rewrite He, lookup_empty in Hs. discriminate. }
    destruct (mockIssuesManagers s !! p) as [received|] eqn:Hm;
      cbn [snd seenIssueKeys mockIssuesManagers]; intros q;
      destruct (Hissue q) as [Hsq Hmq];
      rewrite ?(is_Some_insert_registered (seenIssueKeys s)) by eauto;
      rewrite ?(is_Some_insert_registered (mockIssuesManagers s)) by eauto; auto.
  - cbn [cleanupPageDestroyed storage idGenerator seenIssueKeys mockIssuesManagers].
    split.
    + intros q Hq. apply Hgen. destruct Hq as [navs Hq].
      apply lookup_delete_Some in Hq as [_ Hq]. eauto.
    + destruct (isNetworkCollector s).
      * destruct Hissue as [-> ->]. rewrite !delete_empty. auto.
      * intros q. destruct (Hissue q) as [Hsq Hmq].
        destruct (decide (p = q)) as [->|Hne].
        -- rewrite !lookup_delete_eq. split; split; intros [? ?]; discriminate.
        -- rewrite !lookup_delete_ne by assumption. auto.
Qed.

Lemma createdTogether_new (network : bool) : createdTogether (newCollector network).
Proof.
  split.
  - intros q [navs Hq]. cbn in Hq. rewrite lookup_empty in Hq. discriminate.
  - destruct network; cbn; [split; reflexivity|].
    intros q. rewrite !lookup_empty.
    split; split; intros [? ?]; discriminate.
Qed.
End Lifecycle.

(** * Registration, teardown and the first ingestion *)

Lemma hasStableId_ext (s s' : State) (value : nat) :
  stableId s' = stableId s → hasStableId s' value = hasStableId s value.
Proof. intros H. unfold hasStableId. rewrite H. reflexivity. Qed.

Lemma addPage_new_page (page : nat) (s : State) :
  storage s !! page = None →
  storage (addPage page s) !! page = Some [[]]
  ∧ idGenerator (addPage page s) !! page = Some 1.
Proof.
  intros Hp. destruct (addPage_unregistered page s Hp) as [-> ->].
  rewrite !lookup_insert_eq. auto.
Qed.

Lemma addPage_other_page (page q : nat) (s : State) :
  q ≠ page →
  storage (addPage page s) !! q = storage s !! q
  ∧ idGenerator (addPage page s) !! q = idGenerator s !! q.
Proof.
  intros Hne. destruct (storage s !! page) as [navs|] eqn:Hp.
  - rewrite addPage_registered by eauto. auto.
  - destruct (addPage_unregistered page s Hp) as [-> ->].
    rewrite !lookup_insert_ne by congruence. auto.
Qed.

(** The first ingestion on a page that was just registered. *)
Lemma ingest_first (page value : nat) (s : State) :
  storage s !! page = Some [[]] →
  idGenerator s !! page = Some 1 →
  hasStableId s value = false →
  fst (collector page value s) = Return tt
  ∧ storage (snd (collector page value s)) !! page = Some [[value]]
  ∧ stableId (snd (collector page value s)) !! value = Some 1
  ∧ idGenerator (snd (collector page value s)) !! page = Some 2.
Proof.
  intros Hst Hi Hv.
  rewrite (collector_registered page value 1 s [] [] Hi Hst). cbv zeta.
  rewrite bool_decide_eq_false_2 by apply not_elem_of_nil.
  rewrite (assignId_untagged _ _ _ _ Hv).
  cbn [fst snd with_storage storage stableId idGenerator].
  rewrite !lookup_insert_eq. auto.
Qed.

Lemma getById_first_match (s : State) (page x : nat) (id : Z)
      (cur : list nat) (rest : list (list nat)) :
  storage s !! page = Some ((x :: cur) :: rest) →
  stableId s !! x = Some id →
  getById s page id = Return x.
Proof.
  intros Hst Hid. unfold getById, find. rewrite Hst. cbn [find_in List.find].
  unfold hasId at 1. rewrite bool_decide_eq_true_2 by assumption. reflexivity.
Qed.

(** X7.  [addPage] registers the page, and a page that is registered is
    left untouched: its navigations, its counter and everything else stay
    as they are, so adding a page twice is the same as adding it once. *)
Theorem addPage_registers_once (page : nat) (s : State) :
  is_Some (storage (addPage page s) !! page)
  ∧ addPage page (addPage page s) = addPage page s
  ∧ (is_Some (storage s !! page) → addPage page s = s).
Proof.
  assert (Hreg : is_Some (storage (addPage page s) !! page)).
  { destruct (storage s !! page) as [navs|] eqn:Hp.
    - rewrite addPage_registered by eauto. eauto.
    - destruct (addPage_new_page page s Hp) as [-> _]. eauto. }
  split; [exact Hreg|]. split; [now apply addPage_registered|].
  apply addPage_registered.
Qed.

Lemma addPage_registers_once_witness :
  addPage 1 (exRun fourNavigations (newCollector false))
  = exRun fourNavigations (newCollector false).
Proof.
  apply (proj2 (proj2 (addPage_registers_once 1%nat
                         (exRun fourNavigations (newCollector false))))).
  exists [[51]; [41; 50]; [31; 40]]%nat. reflexivity.
Defined.

(** X8.  [init] registers every page the browser reports: a page that had
    no storage gets one empty navigation and a counter at 1, a page that
    was registered keeps its navigations, and pages that are not reported
    are not touched. *)
Theorem init_registers_reported_pages (pages : list nat) (s : State) (page : nat) :
  (page ∈ pages → storage s !! page = None →
   storage (init pages s) !! page = Some [[]]
   ∧ idGenerator (init pages s) !! page = Some 1)
  ∧ (is_Some (storage s !! page) ∨ page ∉ pages →
     storage (init pages s) !! page = storage s !! page
     ∧ idGenerator (init pages s) !! page = idGenerator s !! page)
  ∧ stableId (init pages s) = stableId s.
Proof.
  revert s. induction pages as [|p pages IH]; intros s.
  - split; [intros Hin; now apply elem_of_nil in Hin|]. cbn. auto.
  - change (init (p :: pages) s) with (init pages (addPage p s)).
    destruct (IH (addPage p s)) as (Hnew & Hkeep & Hids).
    split; [|split].
    + intros Hin Hnone. destruct (decide (page = p)) as [->|Hne].
      * destruct (addPage_new_page p s Hnone) as [Hst Hi].
        destruct Hkeep as [-> ->]; [left; eauto|]. auto.
      * apply elem_of_cons in Hin as [?|Hin]; [contradiction|].
        destruct (addPage_other_page p page s Hne) as [Hst Hi].
        apply Hnew; [assumption | congruence].
    + intros Hcase. destruct (decide (page = p)) as [->|Hne].
      * destruct Hcase as [Hreg|Hnin]; [|exfalso; apply Hnin; left].
        destruct Hkeep as [-> ->]; [left; rewrite addPage_registered; assumption|].
        rewrite addPage_registered by assumption. auto.
      * destruct (addPage_other_page p page s Hne) as [Hst Hi].
        destruct Hkeep as [-> ->]; [|auto].
        destruct Hcase as [Hreg|Hnin]; [left; congruence|].
        right. intros Hin. apply Hnin. now right.
    + rewrite Hids. apply addPage_fields.
Qed.

Lemma init_registers_reported_pages_witness :
  storage (init [1; 2; 1]%nat (exRun fourNavigations (newCollector false))) !! 2%nat
    = Some [[]]
  ∧ storage (init [1; 2; 1]%nat (exRun fourNavigations (newCollector false))) !! 1%nat
    = storage (exRun fourNavigations (newCollector false)) !! 1%nat.
Proof.
  pose proof (init_registers_reported_pages [1; 2; 1]%nat
                (exRun fourNavigations (newCollector false)) 2%nat) as (H2 & _ & _).
  pose proof (init_registers_reported_pages [1; 2; 1]%nat
                (exRun fourNavigations (newCollector false)) 1%nat) as (_ & H1 & _).
  split.
  - apply H2; [|reflexivity]. apply elem_of_cons. right. apply elem_of_cons. now left.
  - apply H1. left. exists [[51]; [41; 50]; [31; 40]]%nat. reflexivity.
Defined.

(** X6.  Register, ingest, query: on a page that had no storage, the
    first object collected after [addPage], if it carries no id yet, gets
    id 1 and is the only item of the page; both queries return it,
    [getById] finds it under id 1, and collecting it again changes
    nothing. *)
Theorem first_ingestion_after_registration (page value : nat) (s : State) :
  storage s !! page = None →
  hasStableId s value = false →
  fst (collector page value (addPage page s)) = Return tt
  ∧ getIdForResource (snd (collector page value (addPage page s))) value = 1
  ∧ getData (snd (collector page value (addPage page s))) page false = Some [value]
  ∧ getData (snd (collector page value (addPage page s))) page true = Some [value]
  ∧ getById (snd (collector page value (addPage page s))) page 1 = Return value
  ∧ collector page value (snd (collector page value (addPage page s)))
    = (Return tt, snd (collector page value (addPage page s))).
Proof.
  intros Hp Hv.
  destruct (addPage_new_page page s Hp) as [Hst Hi].
  assert (Hv0 : hasStableId (addPage page s) value = false).
  { rewrite (hasStableId_ext s); [assumption | apply addPage_fields]. }
  destruct (ingest_first page value (addPage page s) Hst Hi Hv0)
    as (Hret & Hst1 & Hid1 & Hi1).
  set (s1 := snd (collector page value (addPage page s))) in *.
  split; [assumption|]. split; [unfold getIdForResource; now rewrite Hid1|].
  split; [exact (getData_current s1 page [value] [] Hst1)|].
  split; [rewrite (getData_history s1 page _ Hst1); reflexivity|].
  split; [exact (getById_first_match s1 page value 1 [] [] Hst1 Hid1)|].
  apply (collector_idempotent page value 2 s1 [value] [] Hi1 Hst1).
  - apply list_elem_of_singleton. reflexivity.
  - apply hasStableId_true. exists 1. split; [assumption | discriminate].
Qed.

Lemma first_ingestion_after_registration_witness :
  getData (snd (collector 2 7 (addPage 2 (exRun fourNavigations (newCollector false)))))
          2%nat true = Some [7%nat]
  ∧ getById (snd (collector 2 7 (addPage 2 (exRun fourNavigations (newCollector false)))))
            2%nat 1 = Return 7%nat.
Proof.
  pose proof (first_ingestion_after_registration 2%nat 7%nat
                (exRun fourNavigations (newCollector false)) eq_refl eq_refl)
    as (_ & _ & _ & Hdata & Hfind & _).
  split; assumption.
Defined.

(** X9.  Tearing a page down and registering it again starts it afresh:
    whatever was kept for the page is gone and its numbering restarts, so
    the first untagged object collected afterwards gets id 1 again, while
    the ids that objects already carry stay on them. *)
Theorem registration_after_teardown_restarts_ids (page value : nat) (s : State) :
  hasStableId s value = false →
  stableId (snd (collector page value (addPage page (cleanupPageDestroyed page s))))
    !! value = Some 1
  ∧ getData (snd (collector page value (addPage page (cleanupPageDestroyed page s))))
            page true = Some [value]
  ∧ ∀ x id,
      stableId s !! x = Some id → x ≠ value →
      stableId (snd (collector page value (addPage page (cleanupPageDestroyed page s))))
        !! x = Some id.
Proof.
  intros Hv.
  pose proof (cleanupPageDestroyed_storage page s) as Hp.
  set (s0 := cleanupPageDestroyed page s) in *.
  destruct (addPage_new_page page s0 Hp) as [Hst Hi].
  assert (Hids : stableId (addPage page s0) = stableId s).
  { destruct (addPage_fields page s0) as [_ ->]. reflexivity. }
  assert (Hv0 : hasStableId (addPage page s0) value = false).
  { rewrite (hasStableId_ext s); assumption. }
  destruct (ingest_first page value (addPage page s0) Hst Hi Hv0)
    as (_ & Hst1 & Hid1 & _).
  split; [assumption|].
  split; [rewrite (getData_history _ page _ Hst1); reflexivity|].
  intros x id Hx Hne.
  destruct (collector_ids page value (addPage page s0))
    as [(_ & -> & _)|(i & _ & _ & -> & _)].
  - rewrite Hids. assumption.
  - rewrite lookup_insert_ne by congruence. rewrite Hids. assumption.
Qed.

Lemma registration_after_teardown_restarts_ids_witness :
  stableId (exRun fourNavigations (newCollector false)) !! 10%nat = Some 1
  ∧ stableId (snd (collector 1 99
        (addPage 1 (cleanupPageDestroyed 1 (exRun fourNavigations (newCollector false))))))
      !! 99%nat = Some 1
  ∧ stableId (snd (collector 1 99
        (addPage 1 (cleanupPageDestroyed 1 (exRun fourNavigations (newCollector false))))))
      !! 10%nat = Some 1.
Proof.
  pose proof (registration_after_teardown_restarts_ids 1%nat 99%nat
                (exRun fourNavigations (newCollector false)) eq_refl)
    as (Hnew & _ & Hold).
  split; [reflexivity|]. split; [exact Hnew|].
  apply Hold; [reflexivity | discriminate].
Defined.

(** X10.  Teardown of one page leaves the other pages alone: the queries
    on any other page answer as before, and every object keeps its id. *)
Theorem teardown_leaves_other_pages (page q : nat) (s : State) :
  q ≠ page →
  (∀ includePreservedData,
      getData (cleanupPageDestroyed page s) q includePreservedData
      = getData s q includePreservedData)
  ∧ (∀ id, getById (cleanupPageDestroyed page s) q id = getById s q id)
  ∧ (∀ x, getIdForResource (cleanupPageDestroyed page s) x = getIdForResource s x)
  ∧ seenIssueKeys (cleanupPageDestroyed page s) !! q = seenIssueKeys s !! q
  ∧ mockIssuesManagers (cleanupPageDestroyed page s) !! q = mockIssuesManagers s !! q.
Proof.
  intros Hne.
  assert (Hst : storage (cleanupPageDestroyed page s) !! q = storage s !! q).
  { cbn [cleanupPageDestroyed storage]. apply lookup_delete_ne. congruence. }
  split; [|split; [|split; [|split]]].
  - intros b. unfold getData. rewrite Hst. reflexivity.
  - intros id. unfold getById, find. rewrite Hst. reflexivity.
  - reflexivity.
  - cbn [cleanupPageDestroyed seenIssueKeys]. apply lookup_delete_ne. congruence.
  - cbn [cleanupPageDestroyed mockIssuesManagers]. apply lookup_delete_ne. congruence.
Qed.

Lemma teardown_leaves_other_pages_witness :
  getData (cleanupPageDestroyed 2 (exRun fourNavigations (newCollector false)))
          1%nat true = Some [31; 40; 41; 50; 51]%nat.
Proof.
  rewrite (proj1 (teardown_leaves_other_pages 2%nat 1%nat
                    (exRun fourNavigations (newCollector false))
                    ltac:(discriminate)) true).
  reflexivity.
Defined.

(** X11.  A value that reaches the collector closure of a page after the
    page was torn down is tagged but kept nowhere: the call returns, the
    page stays without storage, so the queries on it stay empty, and the
    issue structures are not touched. *)
Theorem ingestion_after_teardown_is_not_kept (page value : nat) (i : Z) (s : State) :
  idGenerator s !! page = Some i →
  storage s !! page = None →
  fst (collector page value s) = Return tt
  ∧ storage (snd (collector page value s)) = storage s
  ∧ (∀ includePreservedData,
        getData (snd (collector page value s)) page includePreservedData = Some [])
  ∧ is_Some (stableId (snd (collector page value s)) !! value)
  ∧ seenIssueKeys (snd (collector page value s)) = seenIssueKeys s
  ∧ mockIssuesManagers (snd (collector page value s)) = mockIssuesManagers s.
Proof.
  intros Hi Hp.
  assert (Hst : storage (snd (collector page value s)) = storage s).
  { destruct (collector_storage page value s) as [H|(cur & rest & _ & Hq & _)];
      [assumption | congruence]. }
  split.
  { unfold collector. rewrite Hi. cbv zeta. rewrite assignId_storage, Hp. reflexivity. }
  split; [assumption|]. split.
  { intros b. apply getData_unregistered. rewrite Hst. assumption. }
  split; [apply collector_tags; eauto|].
  destruct (collector_fields page value s) as (_ & -> & ->). auto.
Qed.

Lemma ingestion_after_teardown_is_not_kept_witness :
  storage (snd (collector 1 99
             (exRun (fourNavigations ++ [TargetDestroyed 1]) (newCollector false))))
    !! 1%nat = None
  ∧ is_Some (stableId (snd (collector 1 99
               (exRun (fourNavigations ++ [TargetDestroyed 1]) (newCollector false))))
             !! 99%nat).
Proof.
  pose proof (ingestion_after_teardown_is_not_kept 1%nat 99%nat 11
                (exRun (fourNavigations ++ [TargetDestroyed 1]) (newCollector false))
                eq_refl eq_refl) as (_ & Hst & _ & Htag & _).
  split; [rewrite Hst; reflexivity | exact Htag].
Defined.

(** * What holds in every state a collector reaches *)

Lemma newCollector_unregistered (network : bool) (page : nat) :
  storage (newCollector network) !! page = None.
Proof. apply lookup_empty. Qed.

Lemma windowsNonEmpty_new (network : bool) : windowsNonEmpty (newCollector network).
Proof. intros page navs H. now rewrite newCollector_unregistered in H. Qed.

Lemma everyNavigation_new (P : list nat → Prop) (network : bool) :
  everyNavigation P (newCollector network).
Proof. intros page navs nav H. now rewrite newCollector_unregistered in H. Qed.

Lemma storedItemsTagged_new (network : bool) : storedItemsTagged (newCollector network).
Proof.
  intros page x (navs & nav & H & _). now rewrite newCollector_unregistered in H.
Qed.

Lemma idsInRange_new (network : bool) : idsInRange (newCollector network).
Proof.
  split; [intros x id H | intros page i H]; cbn in H;
    now rewrite lookup_empty in H.
Qed.

Lemma collector_returns (page value : nat) (s : State) :
  windowsNonEmpty s → fst (collector page value s) = Return tt.
Proof.
  intros Hne. unfold collector. destruct (idGenerator s !! page); [|reflexivity].
  cbv zeta. rewrite assignId_storage.
  destruct (storage s !! page) as [[|cur rest]|] eqn:Hst; [|  |reflexivity].
  - now destruct (Hne page [] Hst).
  - cbn [lookup list_lookup]. destruct (bool_decide (value ∈ cur)); reflexivity.
Qed.

Section Reachable.
Variable mainFrame : nat → nat.
Variable frame : nat → option nat.
Variable isNavigationRequest : nat → bool.
Variable createIssuesFromProtocolIssue : nat → list nat.
Variable primaryKey : nat → string.

Local Abbreviation step' :=
  (step mainFrame frame isNavigationRequest createIssuesFromProtocolIssue primaryKey).
Local Abbreviation run' :=
  (run mainFrame frame isNavigationRequest createIssuesFromProtocolIssue primaryKey).

Lemma run_createdTogether (es : list event) (network : bool) :
  createdTogether (run' es (newCollector network)).
Proof.
  apply (run_invariant mainFrame frame isNavigationRequest
           createIssuesFromProtocolIssue primaryKey createdTogether).
  - apply step_createdTogether.
  - apply createdTogether_new.
Qed.

Lemma run_windowsNonEmpty (es : list event) (network : bool) :
  windowsNonEmpty (run' es (newCollector network)).
Proof.
  apply (run_invariant mainFrame frame isNavigationRequest
           createIssuesFromProtocolIssue primaryKey windowsNonEmpty).
  - apply step_windowsNonEmpty.
  - apply windowsNonEmpty_new.
Qed.

Lemma run_noDup (es : list event) (network : bool) :
  everyNavigation NoDup (run' es (newCollector network)).
Proof.
  apply (run_invariant mainFrame frame isNavigationRequest
           createIssuesFromProtocolIssue primaryKey (everyNavigation NoDup)).
  - apply step_noDup.
  - apply everyNavigation_new.
Qed.

Lemma run_idsInRange (es : list event) (network : bool) :
  idsInRange (run' es (newCollector network)).
Proof.
  apply (run_invariant mainFrame frame isNavigationRequest
           createIssuesFromProtocolIssue primaryKey idsInRange).
  - apply step_idsInRange.
  - apply idsInRange_new.
Qed.

Lemma run_storedItemsTagged (es : list event) (network : bool) :
  storedItemsTagged (run' es (newCollector network)).
Proof.
  apply (run_invariant mainFrame frame isNavigationRequest
           createIssuesFromProtocolIssue primaryKey storedItemsTagged).
  - apply step_storedItemsTagged.
  - apply storedItemsTagged_new.
Qed.

Lemma run_stored_origin (es : list event) :
  ∀ (s : State) (page x : nat),
    stored (run' es s) page x → stored s page x ∨ Collect page x ∈ es.
Proof.
  induction es as [|e es IH]; intros s page x Hx; [now left|].
  rewrite run_cons in Hx. destruct (IH _ _ _ Hx) as [Hst|Hin].
  - destruct (step_stored_origin mainFrame frame isNavigationRequest
                createIssuesFromProtocolIssue primaryKey e s page x Hst)
      as [Hold|[-> _]]; [now left | right; now left].
  - right. now right.
Qed.
End Reachable.

Section ReachableStates.
Variable mainFrame : nat → nat.
Variable frame : nat → option nat.
Variable isNavigationRequest : nat → bool.
Variable createIssuesFromProtocolIssue : nat → list nat.
Variable primaryKey : nat → string.

Local Abbreviation run' :=
  (run mainFrame frame isNavigationRequest createIssuesFromProtocolIssue primaryKey).

(** X12.  In a generic collector the structures of a page are created
    and destroyed together: after any events a page has its set of seen
    keys and its mock manager exactly when it has storage, a registered
    page has its collector closure, and the issue handler of a registered
    page does not throw. *)
Theorem per_page_structures_exist_together (es : list event) (page : nat) :
  (is_Some (seenIssueKeys (run' es (newCollector false)) !! page)
   ↔ is_Some (storage (run' es (newCollector false)) !! page))
  ∧ (is_Some (mockIssuesManagers (run' es (newCollector false)) !! page)
     ↔ is_Some (storage (run' es (newCollector false)) !! page))
  ∧ (is_Some (storage (run' es (newCollector false)) !! page) →
     is_Some (idGenerator (run' es (newCollector false)) !! page)
     ∧ ∀ data,
         fst (Audits_issueAdded createIssuesFromProtocolIssue primaryKey
                page data (run' es (newCollector false))) = Return tt).
Proof.
  destruct (run_createdTogether mainFrame frame isNavigationRequest
              createIssuesFromProtocolIssue primaryKey es false) as [Hgen Hissue].
  rewrite run_isNetworkCollector in Hissue. cbn [newCollector isNetworkCollector] in Hissue.
  destruct (Hissue page) as [Hs Hm].
  split; [exact Hs|]. split; [exact Hm|].
  intros Hreg. split; [now apply Hgen|].
  intros data. unfold Audits_issueAdded.
  destruct (head (createIssuesFromProtocolIssue data)); [|reflexivity].
  destruct (proj2 Hs Hreg) as [seenKeys ->].
  destruct (bool_decide (_ ∈ seenKeys)); [reflexivity|].
  destruct (mockIssuesManagers _ !! page); reflexivity.
Qed.

(** X13.  A network collector never has issue structures: whatever the
    events, it holds no set of seen keys and no mock manager, so it never
    records or forwards a raw issue. *)
Theorem network_collector_has_no_issue_state (es : list event) :
  seenIssueKeys (run' es (newCollector true)) = ∅
  ∧ mockIssuesManagers (run' es (newCollector true)) = ∅.
Proof.
  destruct (run_createdTogether mainFrame frame isNavigationRequest
              createIssuesFromProtocolIssue primaryKey es true) as [_ Hissue].
  rewrite run_isNetworkCollector in Hissue. exact Hissue.
Qed.

(** X14.  In every state a collector of either class reaches, ingestion
    returns without throwing on every page, the query for the current
    navigation has a defined result, and rotation of a registered page
    returns without throwing. *)
Theorem reachable_states_do_not_throw
        (es : list event) (network : bool) (page value : nat) :
  fst (collector page value (run' es (newCollector network))) = Return tt
  ∧ is_Some (getData (run' es (newCollector network)) page false)
  ∧ (is_Some (storage (run' es (newCollector network)) !! page) →
     fst (splitAfterNavigation mainFrame frame isNavigationRequest page
            (run' es (newCollector network))) = Return tt).
Proof.
  pose proof (run_windowsNonEmpty mainFrame frame isNavigationRequest
                createIssuesFromProtocolIssue primaryKey es network) as Hne.
  set (s := run' es (newCollector network)) in *.
  split; [now apply collector_returns|]. split.
  - unfold getData. destruct (storage s !! page) as [[|cur rest]|] eqn:Hst;
      [now destruct (Hne page [] Hst) | cbn; eauto | eauto].
  - intros [navs Hst]. unfold splitAfterNavigation,
      NetworkCollector_splitAfterNavigation, PageCollector_splitAfterNavigation.
    rewrite Hst. destruct navs as [|cur rest]; [now destruct (Hne page [] Hst)|].
    cbn [default from_option id lookup list_lookup]. cbv zeta.
    destruct (isNetworkCollector s); [destruct (_ =? -1)|]; reflexivity.
Qed.

(** X15.  No navigation ever holds an object twice: in every state a
    collector of either class reaches, every kept navigation of every
    page is free of duplicates, and so is the result of the query for the
    current navigation. *)
Theorem navigations_have_no_duplicates
        (es : list event) (network : bool) (page : nat) (navigations : list (list nat)) :
  storage (run' es (newCollector network)) !! page = Some navigations →
  (∀ navigation, navigation ∈ navigations → NoDup navigation)
  ∧ ∃ cur, getData (run' es (newCollector network)) page false = Some cur ∧ NoDup cur.
Proof.
  intros Hst.
  pose proof (run_noDup mainFrame frame isNavigationRequest
                createIssuesFromProtocolIssue primaryKey es network) as Hnd.
  pose proof (run_windowsNonEmpty mainFrame frame isNavigationRequest
                createIssuesFromProtocolIssue primaryKey es network) as Hne.
  split; [intros nav Hnav; eapply Hnd; eassumption|].
  destruct navigations as [|cur rest]; [now destruct (Hne page [] Hst)|].
  exists cur. split; [now apply (getData_current _ page cur rest)|].
  eapply Hnd; [exact Hst | now left].
Qed.

(** X16.  Ids stay safe integers: in every state a collector reaches,
    the id of a tagged object lies between 0 and [MAX_SAFE_INTEGER - 1],
    so [getIdForResource] answers [-1] exactly for the objects that carry
    no id. *)
Theorem ids_are_safe_integers (es : list event) (network : bool) (x : nat) :
  -1 ≤ getIdForResource (run' es (newCollector network)) x < MAX_SAFE_INTEGER
  ∧ (getIdForResource (run' es (newCollector network)) x = -1
     ↔ stableId (run' es (newCollector network)) !! x = None).
Proof.
  destruct (run_idsInRange mainFrame frame isNavigationRequest
              createIssuesFromProtocolIssue primaryKey es network) as [Hid _].
  unfold getIdForResource.
  destruct (stableId (run' es (newCollector network)) !! x) as [id|] eqn:Hx; cbn.
  - specialize (Hid x id Hx). split; [lia|]. split; [lia | discriminate].
  - split; [unfold MAX_SAFE_INTEGER; lia | tauto].
Qed.

(** X17.  Every kept item can be looked up by its id: in every state a
    collector reaches, an item kept for a page carries an id, and
    [getById] with that id returns an item kept for the page that carries
    the same id. *)
Theorem kept_items_are_found_by_their_id
        (es : list event) (network : bool) (page x : nat) :
  stored (run' es (newCollector network)) page x →
  getIdForResource (run' es (newCollector network)) x ≠ -1
  ∧ ∃ y,
      getById (run' es (newCollector network)) page
              (getIdForResource (run' es (newCollector network)) x) = Return y
      ∧ getIdForResource (run' es (newCollector network)) y
        = getIdForResource (run' es (newCollector network)) x
      ∧ stored (run' es (newCollector network)) page y.
Proof.
  intros Hx.
  destruct (run_storedItemsTagged mainFrame frame isNavigationRequest
              createIssuesFromProtocolIssue primaryKey es network page x Hx)
    as [id Hid].
  destruct (run_idsInRange mainFrame frame isNavigationRequest
              createIssuesFromProtocolIssue primaryKey es network) as [Hrange _].
  specialize (Hrange x id Hid).
  set (s := run' es (newCollector network)) in *.
  destruct Hx as (navs & nav & Hst & Hnav & Hin).
  assert (Hget : getIdForResource s x = id) by (unfold getIdForResource; now rewrite Hid).
  rewrite Hget. split; [lia|].
  destruct (find_in_complete (hasId s id) navs nav x Hnav Hin) as [y Hy].
  { unfold hasId. now apply bool_decide_eq_true_2. }
  exists y. unfold getById, find. rewrite Hst, Hy. split; [reflexivity|].
  apply find_in_some in Hy as (Hyid & nav' & Hnav' & Hin').
  apply bool_decide_eq_true_1 in Hyid. split.
  - unfold getIdForResource. now rewrite Hyid.
  - exists navs, nav'. auto.
Qed.

End ReachableStates.

Lemma navigations_have_no_duplicates_witness :
  ∃ cur,
    getData (exRun (fourNavigations ++ [Collect 1 51; Collect 1 50; Collect 1 51])
                   (newCollector true)) 1%nat false = Some cur
    ∧ NoDup cur.
Proof.
  apply (navigations_have_no_duplicates
           exMainFrame exFrame exIsNavigationRequest exCreateIssues exPrimaryKey
           (fourNavigations ++ [Collect 1 51; Collect 1 50; Collect 1 51]) true 1%nat
           [[50; 51]; [40; 41]; [30; 31]; [20; 21]; [10; 11]]%nat).
  reflexivity.
Defined.

Lemma kept_items_are_found_by_their_id_witness :
  ∃ y,
    getById (exRun fourNavigations (newCollector false)) 1%nat
            (getIdForResource (exRun fourNavigations (newCollector false)) 40) = Return y
    ∧ getIdForResource (exRun fourNavigations (newCollector false)) y
      = getIdForResource (exRun fourNavigations (newCollector false)) 40
    ∧ stored (exRun fourNavigations (newCollector false)) 1 y.
Proof.
  apply (kept_items_are_found_by_their_id
           exMainFrame exFrame exIsNavigationRequest exCreateIssues exPrimaryKey
           fourNavigations false 1%nat 40%nat).
  exists [[51]; [41; 50]; [31; 40]]%nat, [31; 40]%nat.
  split; [reflexivity|]. split.
  - apply elem_of_cons. right. apply elem_of_cons. right. apply elem_of_cons. now left.
  - apply elem_of_cons. right. apply elem_of_cons. now left.
Defined.


(** * Search order, history and the navigation-aware rotation *)

Lemma find_app_first (filter : nat → bool) (l1 l2 : list nat) :
  List.find filter (l1 ++ l2) =
    match List.find filter l1 with
    | Some x => Some x
    | None => List.find filter l2
    end.
Proof.
  induction l1 as [|x l1 IH]; [reflexivity|].
  cbn [app List.find]. destruct (filter x); [reflexivity | exact IH].
Qed.

Lemma find_in_concat (filter : nat → bool) (navigations : list (list nat)) :
  find_in filter navigations = List.find filter (concat navigations).
Proof.
  induction navigations as [|nav rest IH]; [reflexivity|].
  cbn [find_in concat]. rewrite find_app_first, IH. reflexivity.
Qed.

(** X19.  [find] scans the navigations of the page in storage order, the
    current navigation first and every navigation from its oldest item
    on: its answer is the first item of that sequence that passes the
    filter, and nothing for a page without storage. *)
Theorem find_returns_first_match_in_storage_order
        (s : State) (page : nat) (filter : nat → bool) :
  find s page filter =
    match storage s !! page with
    | Some navigations => List.find filter (concat navigations)
    | None => None
    end.
Proof.
  unfold find. destruct (storage s !! page); [apply find_in_concat | reflexivity].
Qed.

(** X20.  The query with history ends with the current navigation: for a
    registered page it is the items of up to three older navigations,
    oldest first, followed by exactly what the query without history
    returns. *)
Theorem history_ends_with_current_navigation
        (s : State) (page : nat) (cur : list nat) (rest : list (list nat)) :
  storage s !! page = Some (cur :: rest) →
  getData s page false = Some cur
  ∧ getData s page true
    = Some (concat (rev (take maxNavigationSaved rest)) ++ cur).
Proof.
  intros Hst. split; [now apply (getData_current s page cur rest)|].
  rewrite (getData_history s page _ Hst).
  change (take (S maxNavigationSaved) (cur :: rest))
    with (cur :: take maxNavigationSaved rest).
  cbn [rev]. rewrite concat_app. cbn [concat]. rewrite app_nil_r. reflexivity.
Qed.

Lemma history_ends_with_current_navigation_witness :
  getData (exRun fourNavigations (newCollector true)) 1%nat true
  = Some (concat (rev (take maxNavigationSaved
                         [[40; 41]; [30; 31]; [20; 21]; [10; 11]]%nat))
          ++ [50; 51]%nat).
Proof.
  apply (proj2 (history_ends_with_current_navigation
                  (exRun fourNavigations (newCollector true)) 1%nat
                  [50; 51]%nat [[40; 41]; [30; 31]; [20; 21]; [10; 11]]%nat eq_refl)).
Defined.

Section NetworkKeepsRequests.
Variable mainFrame : nat → nat.
Variable frame : nat → option nat.
Variable isNavigationRequest : nat → bool.
Variable createIssuesFromProtocolIssue : nat → list nat.
Variable primaryKey : nat → string.

Local Abbreviation step' :=
  (step mainFrame frame isNavigationRequest createIssuesFromProtocolIssue primaryKey).
Local Abbreviation run' :=
  (run mainFrame frame isNavigationRequest createIssuesFromProtocolIssue primaryKey).

(** X21.  The navigation-aware rotation of a registered page adds one
    navigation and loses no request: read from the oldest navigation to
    the current one, the requests of the page are the same sequence
    before and after, whether or not a navigation request was found. *)
Theorem network_rotation_keeps_the_request_sequence
        (page : nat) (s : State) (navigations : list (list nat)) :
  storage s !! page = Some navigations →
  navigations ≠ [] →
  ∃ navigations',
    NetworkCollector_splitAfterNavigation mainFrame frame isNavigationRequest page s
    = (Return tt, with_storage (<[page := navigations']> (storage s)) s)
    ∧ length navigations' = S (length navigations)
    ∧ concat (rev navigations') = concat (rev navigations).
Proof.
  intros Hst Hne. destruct navigations as [|cur rest]; [contradiction|].
  unfold NetworkCollector_splitAfterNavigation. rewrite Hst.
  cbn [default from_option id lookup list_lookup insert list_insert]. cbv zeta.
  destruct (_ =? -1).
  - eexists. split; [reflexivity|]. split; [reflexivity|].
    cbn [rev]. rewrite !concat_app. cbn [concat]. rewrite !app_nil_r. reflexivity.
  - eexists. split; [reflexivity|]. split; [reflexivity|].
    cbn [rev]. rewrite !concat_app. cbn [concat]. rewrite !app_nil_r.
    rewrite <- !app_assoc, take_drop. reflexivity.
Qed.

Lemma network_step_stored_kept (e : event) (s : State) (page x : nat) :
  isNetworkCollector s = true →
  e ≠ TargetDestroyed page →
  stored s page x → stored (step' e s) page x.
Proof.
  intros Hn He (navs & nav & Hst & Hnav & Hx).
  assert (Hsame : storage (step' e s) !! page = storage s !! page →
                  stored (step' e s) page x).
  { intros H. exists navs, nav. rewrite H. auto. }
  destruct e as [p|p v|p f|p d|p]; cbn [step] in *.
  - apply Hsame. destruct (decide (page = p)) as [->|Hne].
    + rewrite addPage_registered by eauto. reflexivity.
    + apply addPage_other_page. assumption.
  - destruct (collector_storage p v s) as [H|(cur & rest & _ & Hp & _ & H)];
      [apply Hsame; now rewrite H|].
    destruct (decide (page = p)) as [->|Hne];
      [|apply Hsame; rewrite H; apply lookup_insert_ne; congruence].
    rewrite Hst in Hp. injection Hp as ->.
    apply elem_of_cons in Hnav as [->|Hnav].
    + exists ((cur ++ [v]) :: rest), (cur ++ [v]). rewrite H, lookup_insert_eq.
      split; [reflexivity|]. split; [now left | apply elem_of_app; now left].
    + exists ((cur ++ [v]) :: rest), nav. rewrite H, lookup_insert_eq.
      split; [reflexivity|]. split; [now right | assumption].
  - destruct (framenavigated_storage mainFrame frame isNavigationRequest p f s)
      as [H|[(cur & rest & Hp & [[Hg _]|[_ [k H]]])|(Hg & _)]];
      [apply Hsame; now rewrite H | congruence | | congruence].
    destruct (decide (page = p)) as [->|Hne];
      [|apply Hsame; rewrite H; apply lookup_insert_ne; congruence].
    rewrite Hst in Hp. injection Hp as ->.
    apply elem_of_cons in Hnav as [->|Hnav].
    + rewrite <- (take_drop k cur) in Hx. apply elem_of_app in Hx as [Hx|Hx].
      * exists (drop k cur :: take k cur :: rest), (take k cur).
        rewrite H, lookup_insert_eq. split; [reflexivity|].
        split; [right; now left | assumption].
      * exists (drop k cur :: take k cur :: rest), (drop k cur).
        rewrite H, lookup_insert_eq. split; [reflexivity|].
        split; [now left | assumption].
    + exists (drop k cur :: take k cur :: rest), nav.
      rewrite H, lookup_insert_eq. split; [reflexivity|].
      split; [right; now right | assumption].
  - apply Hsame.
    destruct (issueAdded_fields createIssuesFromProtocolIssue primaryKey p d s)
      as (_ & -> & _). reflexivity.
  - apply Hsame. cbn [cleanupPageDestroyed storage].
    apply lookup_delete_ne. congruence.
Qed.

(** X22.  A network collector forgets no request of a page before the
    page is torn down: a request kept for the page is still kept for it
    after any events that do not tear the page down, however many
    navigations there are among them. *)
Theorem network_collector_keeps_requests_until_teardown
        (es : list event) (s : State) (page x : nat) :
  isNetworkCollector s = true →
  TargetDestroyed page ∉ es →
  stored s page x →
  stored (run' es s) page x.
Proof.
  revert s. induction es as [|e es IH]; intros s Hn Hno Hx; [assumption|].
  rewrite run_cons. apply not_elem_of_cons in Hno as [He Hno].
  apply IH; [|assumption|].
  - rewrite step_isNetworkCollector. assumption.
  - apply network_step_stored_kept; [assumption | congruence | assumption].
Qed.
End NetworkKeepsRequests.

Lemma network_rotation_keeps_the_request_sequence_witness :
  ∃ navigations',
    NetworkCollector_splitAfterNavigation exMainFrame exFrame exIsNavigationRequest 1
      (exRun fourNavigations (newCollector true))
    = (Return tt,
       with_storage (<[1%nat := navigations']>
                       (storage (exRun fourNavigations (newCollector true))))
                    (exRun fourNavigations (newCollector true)))
    ∧ length navigations' = 6%nat
    ∧ concat (rev navigations')
      = concat (rev [[50; 51]; [40; 41]; [30; 31]; [20; 21]; [10; 11]]%nat).
Proof.
  apply (network_rotation_keeps_the_request_sequence
           exMainFrame exFrame exIsNavigationRequest 1%nat
           (exRun fourNavigations (newCollector true))
           [[50; 51]; [40; 41]; [30; 31]; [20; 21]; [10; 11]]%nat eq_refl).
  discriminate.
Defined.

Lemma network_collector_keeps_requests_until_teardown_witness :
  stored (exRun fourNavigations (exRun [AddPage 1; Collect 1 5] (newCollector true)))
         1 5.
Proof.
  apply (network_collector_keeps_requests_until_teardown
           exMainFrame exFrame exIsNavigationRequest exCreateIssues exPrimaryKey
           fourNavigations (exRun [AddPage 1; Collect 1 5] (newCollector true))
           1%nat 5%nat).
  - reflexivity.
  - intros H. unfold fourNavigations in H.
    repeat (apply elem_of_cons in H as [H|H]; [discriminate H|]).
    now apply elem_of_nil in H.
  - exists [[5%nat]], [5%nat]. split; [reflexivity|].
    split; apply list_elem_of_singleton; reflexivity.
Defined.

(** * Issues after teardown, and listeners *)

(** X23.  A raw issue notification that arrives for a page after its
    teardown changes nothing; the handler throws a [TypeError] when an
    issue can be created from the notification, since the set of seen
    keys of the page is gone, and returns when none can. *)
Theorem raw_issue_after_teardown
        (createIssuesFromProtocolIssue : nat → list nat) (primaryKey : nat → string)
        (page data : nat) (s : State) :
  Audits_issueAdded createIssuesFromProtocolIssue primaryKey page data
    (cleanupPageDestroyed page s)
  = (match head (createIssuesFromProtocolIssue data) with
     | Some _ => Throw TypeError
     | None => Return tt
     end,
     cleanupPageDestroyed page s).
Proof.
  unfold Audits_issueAdded.
  destruct (head (createIssuesFromProtocolIssue data)); [|reflexivity].
  cbn [cleanupPageDestroyed seenIssueKeys]. rewrite lookup_delete_eq. reflexivity.
Qed.

(** X24.  Teardown forgets the keys seen for a page: once a generic
    collector has torn a page down and registered it again, a raw issue
    is forwarded to the new manager of the page whether or not its key
    had been seen before the teardown. *)
Theorem seen_keys_are_forgotten_at_teardown
        (createIssuesFromProtocolIssue : nat → list nat) (primaryKey : nat → string)
        (page data issue : nat) (s : State) :
  isNetworkCollector s = false →
  head (createIssuesFromProtocolIssue data) = Some issue →
  fst (Audits_issueAdded createIssuesFromProtocolIssue primaryKey page data
         (addPage page (cleanupPageDestroyed page s))) = Return tt
  ∧ mockIssuesManagers
      (snd (Audits_issueAdded createIssuesFromProtocolIssue primaryKey page data
              (addPage page (cleanupPageDestroyed page s)))) !! page
    = Some [issue].
Proof.
  intros Hn Hd.
  assert (Hs : seenIssueKeys (addPage page (cleanupPageDestroyed page s)) !! page
               = Some ∅).
  { unfold addPage. rewrite cleanupPageDestroyed_storage.
    unfold initializePage, subscribeForIssues.
    cbn [cleanupPageDestroyed isNetworkCollector seenIssueKeys]. rewrite Hn.
    cbn [seenIssueKeys]. rewrite lookup_delete_eq. apply lookup_insert_eq. }
  assert (Hm : mockIssuesManagers (addPage page (cleanupPageDestroyed page s)) !! page
               = Some []).
  { unfold addPage. rewrite cleanupPageDestroyed_storage.
    unfold initializePage, subscribeForIssues.
    cbn [cleanupPageDestroyed isNetworkCollector]. rewrite Hn.
    cbn [mockIssuesManagers]. apply lookup_insert_eq. }
  rewrite (issueAdded_fresh _ _ _ _ _ _ _ _ Hd Hs Hm) by apply not_elem_of_empty.
  cbn [fst snd mockIssuesManagers]. rewrite lookup_insert_eq. auto.
Qed.

Lemma seen_keys_are_forgotten_at_teardown_witness :
  mockIssuesManagers (exRun [AddPage 1; IssueAdded 1 3; IssueAdded 1 103]%nat
                            (newCollector false)) !! 1%nat = Some [3%nat]
  ∧ mockIssuesManagers
      (snd (Audits_issueAdded exCreateIssues exPrimaryKey 1 103
              (addPage 1 (cleanupPageDestroyed 1
                 (exRun [AddPage 1; IssueAdded 1 3; IssueAdded 1 103]%nat
                        (newCollector false)))))) !! 1%nat
    = Some [103%nat].
Proof.
  split; [reflexivity|].
  apply (seen_keys_are_forgotten_at_teardown exCreateIssues exPrimaryKey
           1%nat 103%nat 103%nat
           (exRun [AddPage 1; IssueAdded 1 3; IssueAdded 1 103]%nat (newCollector false))
           eq_refl eq_refl).
Defined.

(** X25.  Registering a page and tearing it down again is a round trip
    on the storage and the issue structures: for a page that had none of
    them, [targetcreated] followed by [targetdestroyed] leaves the
    storage, the sets of seen keys, the mock managers and all ids exactly
    as they were. *)
Theorem registration_then_teardown_restores_the_maps (page : nat) (s : State) :
  storage s !! page = None →
  seenIssueKeys s !! page = None →
  mockIssuesManagers s !! page = None →
  storage (targetdestroyed (Some page) (targetcreated (Some page) s)) = storage s
  ∧ seenIssueKeys (targetdestroyed (Some page) (targetcreated (Some page) s))
    = seenIssueKeys s
  ∧ mockIssuesManagers (targetdestroyed (Some page) (targetcreated (Some page) s))
    = mockIssuesManagers s
  ∧ stableId (targetdestroyed (Some page) (targetcreated (Some page) s)) = stableId s.
Proof.
  intros Hst Hs Hm. cbn [targetdestroyed targetcreated].
  unfold addPage. rewrite Hst. unfold initializePage, subscribeForIssues.
  cbn [isNetworkCollector seenIssueKeys].
  destruct (isNetworkCollector s);
    cbn [cleanupPageDestroyed storage seenIssueKeys mockIssuesManagers stableId];
    rewrite ?Hs, ?delete_insert_eq, !delete_id by assumption; auto.
Qed.

Lemma registration_then_teardown_restores_the_maps_witness :
  storage (targetdestroyed (Some 2%nat)
             (targetcreated (Some 2%nat) (exRun fourNavigations (newCollector false))))
  = storage (exRun fourNavigations (newCollector false)).
Proof.
  apply (registration_then_teardown_restores_the_maps 2%nat
           (exRun fourNavigations (newCollector false)) eq_refl eq_refl eq_refl).
Defined.

Lemma setProperty_names (name : string) (value : listener)
      (entries : list (string * listener)) (n : string) :
  n ∈ (setProperty name value entries).*1 ↔ n = name ∨ n ∈ entries.*1.
Proof.
  induction entries as [|[m l] rest IH]; cbn [setProperty fmap list_fmap].
  - rewrite list_elem_of_singleton. cbn. rewrite elem_of_nil. tauto.
  - destruct (String.eqb_spec m name) as [->|Hne]; cbn [fmap list_fmap fst];
      rewrite !elem_of_cons; [tauto|]. rewrite IH. tauto.
Qed.

Lemma setProperty_entries (name : string) (value : listener)
      (entries : list (string * listener)) :
  NoDup entries.*1 →
  NoDup (setProperty name value entries).*1
  ∧ ∀ n l, (n, l) ∈ setProperty name value entries
           ↔ (n = name ∧ l = value) ∨ (n ≠ name ∧ (n, l) ∈ entries).
Proof.
  induction entries as [|[m x] rest IH]; cbn [setProperty fmap list_fmap fst]; intros Hnd.
  - split; [apply NoDup_singleton|]. intros n l.
    rewrite list_elem_of_singleton, elem_of_nil. split.
    + intros [= -> ->]. auto.
    + intros [[-> ->]|[_ []]]. reflexivity.
  - apply NoDup_cons in Hnd as [Hm Hnd]. destruct (IH Hnd) as [IHnd IHin].
    destruct (String.eqb_spec m name) as [->|Hne]; cbn [fmap list_fmap fst].
    + split; [apply NoDup_cons; auto|]. intros n l. rewrite !elem_of_cons. split.
      * intros [[= -> ->]|Hin]; [auto|]. right. split; [|auto].
        intros ->. apply Hm. apply list_elem_of_fmap. exists (name, l). auto.
      * intros [[-> ->]|[Hn [[= -> ->]|Hin]]]; [auto | contradiction | auto].
    + split.
      * apply NoDup_cons. split; [|assumption].
        rewrite setProperty_names. intros [->|Hin]; [congruence | contradiction].
      * intros n l. rewrite !elem_of_cons, IHin. split.
        -- intros [[= -> ->]|[[-> ->]|[Hn Hin]]]; auto.
        -- intros [[-> ->]|[Hn [[= -> ->]|Hin]]]; auto.
Qed.

(** X26.  The ['framenavigated'] listener of a page is always the one
    of the collector: whatever listeners the initializer returns, under
    distinct event names, the listeners attached to the page have
    distinct names, the one under ['framenavigated'] is the collector's
    navigation listener and no other, and under every other name they are
    exactly the initializer's. *)
Theorem framenavigated_listener_is_the_collectors
        (page : nat) (fromInitializer : list (string * listener)) :
  NoDup fromInitializer.*1 →
  NoDup (pageListeners page fromInitializer).*1
  ∧ (∀ l, ("framenavigated", l) ∈ pageListeners page fromInitializer
          ↔ l = NavigationListener page)
  ∧ (∀ name l, name ≠ "framenavigated" →
               ((name, l) ∈ pageListeners page fromInitializer
                ↔ (name, l) ∈ fromInitializer)).
Proof.
  intros Hnd. unfold pageListeners.
  destruct (setProperty_entries "framenavigated" (NavigationListener page)
              fromInitializer Hnd) as [Hnd' Hin].
  split; [assumption|]. split.
  - intros l. rewrite Hin. split; [intros [[_ ->]|[Hne _]]; congruence | auto].
  - intros name l Hne. rewrite Hin. split; [intros [[-> _]|[_ H]]; congruence | auto].
Qed.

Lemma framenavigated_listener_is_the_collectors_witness :
  pageListeners 1 [("request", UserListener 1); ("framenavigated", UserListener 2);
                   ("issue", UserListener 3)]
  = [("request", UserListener 1); ("framenavigated", NavigationListener 1);
     ("issue", UserListener 3)]
  ∧ (∀ l, ("framenavigated", l)
            ∈ pageListeners 1 [("request", UserListener 1);
                               ("framenavigated", UserListener 2);
                               ("issue", UserListener 3)]
          ↔ l = NavigationListener 1).
Proof.
  split; [reflexivity|].
  apply (framenavigated_listener_is_the_collectors 1%nat
           [("request", UserListener 1); ("framenavigated", UserListener 2);
            ("issue", UserListener 3)]).
  cbn. repeat (apply NoDup_cons; split;
               [rewrite ?elem_of_cons, elem_of_nil; intros H;
                repeat (destruct H as [H|H]; [discriminate H|]); exact H|]).
  apply NoDup_nil_2.
Defined.

(** * Navigation listener, exact lookup, and ids on a single page *)

(** X27.  The navigation listener of a generic collector: a navigation
    of a frame that is not the main frame of the page changes nothing;
    after a navigation of the main frame of a registered page the query
    without history is empty and the query with history returns the items
    of the two newest navigations the page had, oldest first. *)
Theorem navigation_listener_of_generic_collector
        (mainFrame : nat → nat) (frame : nat → option nat)
        (isNavigationRequest : nat → bool)
        (page navigated : nat) (s : State) (navigations : list (list nat)) :
  isNetworkCollector s = false →
  storage s !! page = Some navigations →
  (navigated ≠ mainFrame page →
   framenavigated mainFrame frame isNavigationRequest page navigated s = (Return tt, s))
  ∧ getData (snd (framenavigated mainFrame frame isNavigationRequest
                    page (mainFrame page) s)) page false = Some []
  ∧ getData (snd (framenavigated mainFrame frame isNavigationRequest
                    page (mainFrame page) s)) page true
    = Some (concat (rev (take 2 navigations))).
Proof.
  intros Hn Hst. split.
  { intros Hne. unfold framenavigated. now rewrite bool_decide_eq_false_2. }
  unfold framenavigated. rewrite bool_decide_eq_true_2 by reflexivity.
  unfold splitAfterNavigation. rewrite Hn.
  rewrite (PageCollector_splitAfterNavigation_registered _ _ _ Hst). cbn [snd].
  assert (Hst' : storage (with_storage (<[page := [] :: take 2 navigations]> (storage s)) s)
                   !! page = Some ([] :: take 2 navigations)).
  { cbn [with_storage storage]. apply lookup_insert_eq. }
  split; [exact (getData_current _ page [] _ Hst')|].
  rewrite (getData_history _ page _ Hst').
  change (take (S maxNavigationSaved) ([] :: take 2 navigations))
    with ([] :: take maxNavigationSaved (take 2 navigations)).
  rewrite take_take. cbn [Nat.min maxNavigationSaved rev].
  rewrite concat_app. cbn [concat]. rewrite app_nil_r. reflexivity.
Qed.

Lemma navigation_listener_of_generic_collector_witness :
  getData (exRun fourNavigations (newCollector false)) 1%nat true
    = Some [31; 40; 41; 50; 51]%nat
  ∧ getData (snd (framenavigated exMainFrame exFrame exIsNavigationRequest 1
                    (exMainFrame 1) (exRun fourNavigations (newCollector false))))
            1%nat true
    = Some (concat (rev (take 2 [[51]; [41; 50]; [31; 40]]%nat))).
Proof.
  split; [reflexivity|].
  apply (navigation_listener_of_generic_collector
           exMainFrame exFrame exIsNavigationRequest 1%nat 5%nat
           (exRun fourNavigations (newCollector false))
           [[51]; [41; 50]; [31; 40]]%nat eq_refl eq_refl).
Defined.

(** X28.  [getById] returns the very item that carries the id when no
    other kept item of the page carries it. *)
Theorem getById_returns_the_item_with_the_id
        (s : State) (page x : nat) (id : Z) :
  stored s page x →
  stableId s !! x = Some id →
  (∀ y, stored s page y → stableId s !! y = Some id → y = x) →
  getById s page id = Return x.
Proof.
  intros (navs & nav & Hst & Hnav & Hin) Hid Hunique.
  destruct (find_in_complete (hasId s id) navs nav x Hnav Hin) as [y Hy].
  { unfold hasId. now apply bool_decide_eq_true_2. }
  unfold getById, find. rewrite Hst, Hy. f_equal.
  apply find_in_some in Hy as (Hyid & nav' & Hnav' & Hin').
  apply bool_decide_eq_true_1 in Hyid.
  apply Hunique; [|assumption]. exists navs, nav'. auto.
Qed.

Lemma getById_returns_the_item_with_the_id_witness :
  getById (exRun fourNavigations (newCollector false)) 1%nat 8 = Return 41%nat.
Proof.
  apply (getById_returns_the_item_with_the_id
           (exRun fourNavigations (newCollector false)) 1%nat 41%nat 8).
  - exists [[51]; [41; 50]; [31; 40]]%nat, [41; 50]%nat.
    split; [reflexivity|]. split.
    + apply elem_of_cons. right. apply elem_of_cons. now left.
    + apply elem_of_cons. now left.
  - reflexivity.
  - intros y (navs & nav & Hst & Hnav & Hin) Hy.
    assert (navs = [[51]; [41; 50]; [31; 40]]%nat) as -> by (vm_compute in Hst; congruence).
    repeat (apply elem_of_cons in Hnav as [->|Hnav]);
      [| | |now apply elem_of_nil in Hnav];
      repeat (apply elem_of_cons in Hin as [->|Hin]);
      try (now apply elem_of_nil in Hin); try reflexivity;
      vm_compute in Hy; discriminate Hy.
Defined.

Section SinglePage.
Variable mainFrame : nat → nat.
Variable frame : nat → option nat.
Variable isNavigationRequest : nat → bool.
Variable createIssuesFromProtocolIssue : nat → list nat.
Variable primaryKey : nat → string.
Variable page : nat.

Local Abbreviation step' :=
  (step mainFrame frame isNavigationRequest createIssuesFromProtocolIssue primaryKey).
Local Abbreviation run' :=
  (run mainFrame frame isNavigationRequest createIssuesFromProtocolIssue primaryKey).

Local Abbreviation idsOfOnePage := (idsOfOnePage page).

Lemma step_idsOfOnePage (e : event) (k : nat) (s : State) :
  (∀ q v, e = Collect q v → q = page) →
  e ≠ TargetDestroyed page →
  1 + Z.of_nat k < MAX_SAFE_INTEGER →
  idsOfOnePage k s → idsOfOnePage (S k) (step' e s).
Proof.
  intros Hcollect Hdestroy Hk (Hc & Hnone & Huniq & Hreg).
  assert (Hsame : ∀ s', idGenerator s' !! page = idGenerator s !! page →
                        stableId s' = stableId s →
                        (is_Some (storage s !! page) → is_Some (storage s' !! page)) →
                        idsOfOnePage (S k) s').
  { intros s' Hg Hi Hs. unfold idsOfOnePage, stableIdsUnique. rewrite Hg, Hi.
    split; [|split; [assumption|split; [exact Huniq|auto]]].
    intros c Hcc. destruct (Hc c Hcc) as [Hle Hids]. split; [lia | assumption]. }
  destruct e as [p|p v|p f|p d|p]; cbn [step].
  - destruct (decide (p = page)) as [->|Hne].
    + destruct (storage s !! page) as [navs|] eqn:Hst;
        [rewrite addPage_registered by eauto; apply Hsame; auto|].
      assert (Hgn : idGenerator s !! page = None).
      { destruct (idGenerator s !! page) eqn:Hg; [|reflexivity].
        destruct Hreg as [? ?]; [eauto | discriminate]. }
      destruct (addPage_new_page page s Hst) as [Hst' Hg'].
      destruct (addPage_fields page s) as [_ Hids]. rewrite (Hnone Hgn) in Hids.
      unfold idsOfOnePage, stableIdsUnique. rewrite Hg', Hids, Hst'.
      split; [|split; [discriminate|split; [|eauto]]].
      * intros c [= <-]. split; [lia|]. intros x id Hx. now rewrite lookup_empty in Hx.
      * intros x y id Hx. now rewrite lookup_empty in Hx.
    + destruct (addPage_other_page p page s) as [Hst Hg]; [congruence|].
      apply Hsame; [assumption | apply addPage_fields | now rewrite Hst].
  - rewrite (Hcollect p v eq_refl).
    destruct (collector_ids page v s) as [(_ & Hi & Hg)|(i & Hgi & Hv & Hi & Hg)].
    + apply Hsame; [now rewrite Hg | assumption | apply collector_registered_same].
    + destruct (Hc i Hgi) as [Hle Hids].
      rewrite idGenerator_call_below in Hi, Hg by lia. cbn [fst snd] in Hi, Hg.
      unfold idsOfOnePage, stableIdsUnique. rewrite Hi, Hg, lookup_insert_eq.
      split; [|split; [discriminate|split]].
      * intros c [= <-]. split; [lia|]. intros x id Hx.
        apply lookup_insert_Some in Hx as [[_ <-]|[_ Hx]]; [lia|].
        specialize (Hids x id Hx). lia.
      * intros x y id Hx Hy.
        apply lookup_insert_Some in Hx as [[<- <-]|[Hnx Hx]];
          apply lookup_insert_Some in Hy as [[<- Hid]|[Hny Hy]].
        -- reflexivity.
        -- specialize (Hids y i Hy). lia.
        -- subst id. specialize (Hids x i Hx). lia.
        -- eapply Huniq; eassumption.
      * intros _. apply collector_registered_same. apply Hreg. eauto.
  - destruct (framenavigated_fields mainFrame frame isNavigationRequest p f s)
      as (_ & Hg & Hi & _).
    apply Hsame; [now rewrite Hg | assumption | apply framenavigated_registered_same].
  - destruct (issueAdded_fields createIssuesFromProtocolIssue primaryKey p d s)
      as (_ & Hst & Hg & Hi).
    apply Hsame; [now rewrite Hg | assumption | now rewrite Hst].
  - apply Hsame; [reflexivity | reflexivity|].
    cbn [cleanupPageDestroyed storage]. rewrite lookup_delete_ne by congruence. auto.
Qed.

Lemma run_idsOfOnePage (es : list event) :
  ∀ (k : nat) (s : State),
    (∀ q v, Collect q v ∈ es → q = page) →
    TargetDestroyed page ∉ es →
    1 + Z.of_nat (k + length es) ≤ MAX_SAFE_INTEGER →
    idsOfOnePage k s → idsOfOnePage (k + length es) (run' es s).
Proof.
  induction es as [|e es IH]; intros k s Hcollect Hdestroy Hk Hinv.
  - cbn [length]. rewrite Nat.add_0_r. assumption.
  - rewrite run_cons. cbn [length] in *.
    apply not_elem_of_cons in Hdestroy as [He Hdestroy].
    replace (k + S (length es))%nat with (S k + length es)%nat by lia.
    apply IH; [intros q v Hin; apply (Hcollect q v); now right
              | assumption | lia |].
    apply step_idsOfOnePage; [|congruence | lia | assumption].
    intros q v ->. apply (Hcollect q v). now left.
Qed.

End SinglePage.

